(** * Webhook ingestion gateway: a shallow embedding

    The development follows the repository's webhook path:

    - [ShopifyWebhooksController.handleWebhook] and its helpers
      (header extraction, IP / token / HMAC / nonce checks, the Redis
      lookup [getCachedData], the enqueue and the final [redis.set]);
    - [ShopifyWebhooksService.registerWebhooks] with its retry wrapper;
    - [QueueProcessor] with the queue's default job options.

    Platform primitives the controller calls ([Buffer.toString],
    [createHmac('sha256', ...).digest('base64')], [JSON.parse]) are written
    out as executable functions so that every path can be evaluated.  The
    framework's guards in front of the handler (rate limiting) and the
    logging, tracing and metrics calls are left out. *)

From Stdlib Require Import ZArith String Ascii List Bool Lia.
From stdpp Require Import base gmap strings list.

#[global] Set Warnings "-register-all".

Import ListNotations.
Local Open Scope Z_scope.

(** ** Bytes, text and the HMAC-SHA256 primitive *)

Module Bytes.

(** A byte is an integer in [0, 255]; a [Buffer] is a list of bytes. *)
Definition buffer := list Z.

(** A JavaScript string is kept as its sequence of Unicode scalar values. *)
Definition jsstring := list Z.

Definition is_byte (b : Z) : bool := (0 <=? b) && (b <=? 255).

Definition bytes_of_string (s : string) : buffer :=
  map (fun c => Z.of_nat (nat_of_ascii c)) (list_ascii_of_string s).

Definition string_of_bytes (bs : buffer) : string :=
  string_of_list_ascii (map (fun b => ascii_of_nat (Z.to_nat b)) bs).

(** An ASCII literal seen as a JavaScript string. *)
Definition js (s : string) : jsstring := bytes_of_string s.

End Bytes.

Module Utf8.
Import Bytes.

Definition REPLACEMENT : Z := 0xFFFD.

(** Decoder state between bytes: the code point being assembled, the
    continuation bytes still expected, and the range allowed for the next
    continuation byte. *)
Record dstate := mkD { d_cp : Z; d_need : nat; d_lo : Z; d_hi : Z }.

Definition d_init : dstate := mkD 0 0 0x80 0xBF.

(** A byte read with no sequence pending. *)
Definition lead (b : Z) : list Z * dstate :=
  if b <=? 0x7F then ([b], d_init)
  else if (0xC2 <=? b) && (b <=? 0xDF) then ([], mkD (Z.land b 0x1F) 1 0x80 0xBF)
  else if (0xE0 <=? b) && (b <=? 0xEF) then
    ([], mkD (Z.land b 0xF) 2 (if b =? 0xE0 then 0xA0 else 0x80)
                              (if b =? 0xED then 0x9F else 0xBF))
  else if (0xF0 <=? b) && (b <=? 0xF4) then
    ([], mkD (Z.land b 0x7) 3 (if b =? 0xF0 then 0x90 else 0x80)
                              (if b =? 0xF4 then 0x8F else 0xBF))
  else ([REPLACEMENT], d_init).

(** One byte of input.  A byte that cannot continue the pending sequence
    ends it with U+FFFD and is then read again as a lead byte. *)
Definition feed (st : dstate) (b : Z) : list Z * dstate :=
  match d_need st with
  | O => lead b
  | S n =>
      if (d_lo st <=? b) && (b <=? d_hi st) then
        let cp := Z.lor (Z.shiftl (d_cp st) 6) (Z.land b 0x3F) in
        match n with
        | O => ([cp], d_init)
        | S _ => ([], mkD cp n 0x80 0xBF)
        end
      else
        let '(out, st') := lead b in (REPLACEMENT :: out, st')
  end.

Fixpoint decode_from (st : dstate) (bs : buffer) : jsstring :=
  match bs with
  | [] => match d_need st with O => [] | S _ => [REPLACEMENT] end
  | b :: rest => let '(out, st') := feed st b in out ++ decode_from st' rest
  end.

(** [Buffer.prototype.toString()] with its default encoding, 'utf8':
    ill-formed sequences become U+FFFD. *)
Definition toString (bs : buffer) : jsstring := decode_from d_init bs.

Definition encode_cp (c : Z) : buffer :=
  if c <? 0x80 then [c]
  else if c <? 0x800 then
    [Z.lor 0xC0 (Z.shiftr c 6); Z.lor 0x80 (Z.land c 0x3F)]
  else if c <? 0x10000 then
    [Z.lor 0xE0 (Z.shiftr c 12);
     Z.lor 0x80 (Z.land (Z.shiftr c 6) 0x3F);
     Z.lor 0x80 (Z.land c 0x3F)]
  else
    [Z.lor 0xF0 (Z.shiftr c 18);
     Z.lor 0x80 (Z.land (Z.shiftr c 12) 0x3F);
     Z.lor 0x80 (Z.land (Z.shiftr c 6) 0x3F);
     Z.lor 0x80 (Z.land c 0x3F)].

(** The bytes a string contributes when it is written to a hash or a
    socket: its UTF-8 encoding. *)
Definition encode (s : jsstring) : buffer := flat_map encode_cp s.

End Utf8.

Module Sha256.
Import Bytes.

Definition add32 (a b : Z) : Z := (a + b) mod 2 ^ 32.
Definition rotr (n x : Z) : Z :=
  Z.lor (Z.shiftr x n) ((Z.shiftl x (32 - n)) mod 2 ^ 32).
Definition not32 (x : Z) : Z := Z.lxor x 0xFFFFFFFF.

Definition Ch (e f g : Z) : Z := Z.lxor (Z.land e f) (Z.land (not32 e) g).
Definition Maj (a b c : Z) : Z :=
  Z.lxor (Z.lxor (Z.land a b) (Z.land a c)) (Z.land b c).
Definition BSIG0 (a : Z) : Z := Z.lxor (Z.lxor (rotr 2 a) (rotr 13 a)) (rotr 22 a).
Definition BSIG1 (e : Z) : Z := Z.lxor (Z.lxor (rotr 6 e) (rotr 11 e)) (rotr 25 e).
Definition SSIG0 (x : Z) : Z := Z.lxor (Z.lxor (rotr 7 x) (rotr 18 x)) (Z.shiftr x 3).
Definition SSIG1 (x : Z) : Z := Z.lxor (Z.lxor (rotr 17 x) (rotr 19 x)) (Z.shiftr x 10).

(** The round constants and the initial hash value are defined, as in
    FIPS 180-4, from the first primes: the first 32 bits of the fractional
    parts of their cube roots and of their square roots. *)
Definition is_prime (n : Z) : bool :=
  (1 <? n) && forallb (fun d => negb (n mod Z.of_nat d =? 0)) (seq 2 (Z.to_nat n - 2)).

Definition primes (count : nat) : list Z :=
  firstn count (List.filter is_prime (map Z.of_nat (seq 2 400))).

(** The integer cube root, one bit at a time from bit [bits - 1] down. *)
Fixpoint cube_root (bits : nat) (x acc : Z) : Z :=
  match bits with
  | O => acc
  | S bits' =>
      let c := acc + 2 ^ Z.of_nat bits' in
      if c * c * c <=? x then cube_root bits' x c else cube_root bits' x acc
  end.

Definition K : list Z :=
  Eval vm_compute in
    map (fun p => cube_root 36 (p * 2 ^ 96) 0 mod 2 ^ 32) (primes 64).

Definition H0 : list Z :=
  Eval vm_compute in
    map (fun p => Z.sqrt (p * 2 ^ 64) mod 2 ^ 32) (primes 8).

(** Big-endian 32-bit words of a byte string whose length is a multiple of 4. *)
Fixpoint words (bs : buffer) : list Z :=
  match bs with
  | a :: b :: c :: d :: rest =>
      (Z.shiftl a 24 + Z.shiftl b 16 + Z.shiftl c 8 + d) :: words rest
  | _ => []
  end.

Definition word_bytes (w : Z) : buffer :=
  [ Z.shiftr w 24 mod 256; Z.shiftr w 16 mod 256; Z.shiftr w 8 mod 256; w mod 256 ].

(** The message schedule, newest word first: [rev] of W0..W(t-1). *)
Fixpoint schedule (n : nat) (recent : list Z) : list Z :=
  match n with
  | O => recent
  | S n' =>
      let w := add32 (add32 (SSIG1 (nth 1 recent 0)) (nth 6 recent 0))
                     (add32 (SSIG0 (nth 14 recent 0)) (nth 15 recent 0)) in
      schedule n' (w :: recent)
  end.

Definition round (st : list Z) (kw : Z * Z) : list Z :=
  match st with
  | [a; b; c; d; e; f; g; h] =>
      let t1 := add32 (add32 (add32 h (BSIG1 e)) (add32 (Ch e f g) (fst kw))) (snd kw) in
      let t2 := add32 (BSIG0 a) (Maj a b c) in
      [add32 t1 t2; a; b; c; add32 d t1; e; f; g]
  | _ => st
  end.

Definition zip_add (xs ys : list Z) : list Z :=
  map (fun p => add32 (fst p) (snd p)) (combine xs ys).

Definition compress (h : list Z) (block : list Z) : list Z :=
  let w := rev (schedule 48 (rev block)) in
  zip_add h (fold_left round (combine K w) h).

Fixpoint blocks (fuel : nat) (h : list Z) (ws : list Z) : list Z :=
  match fuel with
  | O => h
  | S fuel' =>
      match ws with
      | [] => h
      | _ => blocks fuel' (compress h (firstn 16 ws)) (skipn 16 ws)
      end
  end.

Definition pad (msg : buffer) : buffer :=
  let len := Z.of_nat (length msg) in
  let zeros := Z.to_nat ((55 - len) mod 64) in
  msg ++ [0x80] ++ repeat 0 zeros
      ++ word_bytes (Z.shiftr (8 * len) 32 mod 2 ^ 32)
      ++ word_bytes ((8 * len) mod 2 ^ 32).

Definition sha256 (msg : buffer) : buffer :=
  let ws := words (pad msg) in
  flat_map word_bytes (blocks (length ws) H0 ws).

Definition BLOCK : nat := 64.

(** HMAC (RFC 2104) over SHA-256. *)
Definition hmac_key (key : buffer) : buffer :=
  let k := if (BLOCK <? length key)%nat then sha256 key else key in
  k ++ repeat 0 (BLOCK - length k)%nat.

Definition hmac_sha256 (key msg : buffer) : buffer :=
  let k := hmac_key key in
  sha256 (map (Z.lxor 0x5c) k ++ sha256 (map (Z.lxor 0x36) k ++ msg)).

End Sha256.

Module Base64.
Import Bytes.

Definition alphabet : string :=
  "ABCDEFGHIJKLMNOPQRSTUVWXYZabcdefghijklmnopqrstuvwxyz0123456789+/".

Definition digit (n : Z) : ascii :=
  match String.get (Z.to_nat n) alphabet with
  | Some c => c
  | None => "="%char
  end.

Fixpoint encode (bs : buffer) : string :=
  match bs with
  | [] => EmptyString
  | [a] =>
      String (digit (Z.shiftr a 2))
        (String (digit (Z.shiftl (Z.land a 3) 4)) "==")
  | [a; b] =>
      String (digit (Z.shiftr a 2))
        (String (digit (Z.lor (Z.shiftl (Z.land a 3) 4) (Z.shiftr b 4)))
           (String (digit (Z.shiftl (Z.land b 15) 2)) "="))
  | a :: b :: c :: rest =>
      String (digit (Z.shiftr a 2))
        (String (digit (Z.lor (Z.shiftl (Z.land a 3) 4) (Z.shiftr b 4)))
           (String (digit (Z.lor (Z.shiftl (Z.land b 15) 2) (Z.shiftr c 6)))
              (String (digit (Z.land c 63)) (encode rest))))
  end.

End Base64.

(** ** [JSON.parse], as far as the controller observes it *)

Module Json.
Import Bytes.

(** A number literal [-]m * 10^e keeps its exact decimal value. *)
Inductive value :=
| JNull
| JBool (b : bool)
| JNumber (negative : bool) (m : Z) (e : Z)
| JString (units : list Z)
| JArray (items : list value)
| JObject (members : list (list Z * value)).

Definition is_ws (c : Z) : bool :=
  (c =? 32) || (c =? 9) || (c =? 10) || (c =? 13).
Definition is_digit (c : Z) : bool := (48 <=? c) && (c <=? 57).

Fixpoint skip_ws (cs : list Z) : list Z :=
  match cs with
  | c :: rest => if is_ws c then skip_ws rest else cs
  | [] => []
  end.

Fixpoint expect (lit cs : list Z) : option (list Z) :=
  match lit, cs with
  | [], _ => Some cs
  | l :: lit', c :: cs' => if l =? c then expect lit' cs' else None
  | _ :: _, [] => None
  end.

(** Reads a run of digits: the accumulated value, how many were read,
    and the rest of the input. *)
Fixpoint digits (cs : list Z) (acc : Z) (n : nat) : Z * nat * list Z :=
  match cs with
  | c :: rest => if is_digit c then digits rest (10 * acc + (c - 48)) (S n)
                 else (acc, n, cs)
  | [] => (acc, n, [])
  end.

Definition parse_int (cs : list Z) : option (Z * list Z) :=
  match cs with
  | c :: rest =>
      if c =? 48 then Some (0, rest)
      else if is_digit c then
        let '(m, _, rest') := digits rest (c - 48) 0%nat in Some (m, rest')
      else None
  | [] => None
  end.

Definition parse_frac (m : Z) (cs : list Z) : option (Z * Z * list Z) :=
  match cs with
  | 46 :: rest =>
      let '(m', n, rest') := digits rest m 0%nat in
      match n with
      | O => None
      | S _ => Some (m', - Z.of_nat n, rest')
      end
  | _ => Some (m, 0, cs)
  end.

Definition parse_exp (cs : list Z) : option (Z * list Z) :=
  match cs with
  | c :: rest =>
      if (c =? 101) || (c =? 69) then
        let '(neg, rest1) :=
          match rest with
          | 45 :: r => (true, r)
          | 43 :: r => (false, r)
          | _ => (false, rest)
          end in
        let '(x, n, rest2) := digits rest1 0 0%nat in
        match n with
        | O => None
        | S _ => Some (if neg then - x else x, rest2)
        end
      else Some (0, cs)
  | [] => Some (0, [])
  end.

Definition parse_number (cs : list Z) : option (value * list Z) :=
  let '(neg, cs1) := match cs with 45 :: r => (true, r) | _ => (false, cs) end in
  match parse_int cs1 with
  | None => None
  | Some (m, cs2) =>
      match parse_frac m cs2 with
      | None => None
      | Some (m', e1, cs3) =>
          match parse_exp cs3 with
          | None => None
          | Some (e2, cs4) => Some (JNumber neg m' (e1 + e2), cs4)
          end
      end
  end.

Definition hex_digit (c : Z) : option Z :=
  if is_digit c then Some (c - 48)
  else if (97 <=? c) && (c <=? 102) then Some (c - 87)
  else if (65 <=? c) && (c <=? 70) then Some (c - 55)
  else None.

Definition hex4 (a b c d : Z) : option Z :=
  match hex_digit a, hex_digit b, hex_digit c, hex_digit d with
  | Some x, Some y, Some z, Some w => Some (((x * 16 + y) * 16 + z) * 16 + w)
  | _, _, _, _ => None
  end.

Definition escape (c : Z) : option Z :=
  if (c =? 34) || (c =? 92) || (c =? 47) then Some c
  else if c =? 98 then Some 8
  else if c =? 102 then Some 12
  else if c =? 110 then Some 10
  else if c =? 114 then Some 13
  else if c =? 116 then Some 9
  else None.

(** The characters of a string literal after its opening quote. *)
Fixpoint parse_chars (cs : list Z) (acc : list Z) : option (list Z * list Z) :=
  match cs with
  | [] => None
  | c :: rest =>
      if c =? 34 then Some (rev acc, rest)
      else if c =? 92 then
        match rest with
        | 117 :: h1 :: h2 :: h3 :: h4 :: rest' =>
            match hex4 h1 h2 h3 h4 with
            | Some u => parse_chars rest' (u :: acc)
            | None => None
            end
        | e :: rest' =>
            match escape e with
            | Some x => parse_chars rest' (x :: acc)
            | None => None
            end
        | [] => None
        end
      else if c <? 32 then None
      else parse_chars rest (c :: acc)
  end.

(** Recursive descent; every call hands a smaller budget to the calls it
    makes, and a budget of twice the input length is never exhausted. *)
Fixpoint parse_value (fuel : nat) (cs : list Z) : option (value * list Z) :=
  match fuel with
  | O => None
  | S fuel' =>
      match skip_ws cs with
      | [] => None
      | c :: rest =>
          if c =? 110 then option_map (pair JNull) (expect (js "ull") rest)
          else if c =? 116 then option_map (pair (JBool true)) (expect (js "rue") rest)
          else if c =? 102 then option_map (pair (JBool false)) (expect (js "alse") rest)
          else if c =? 34 then
            match parse_chars rest [] with
            | Some (s, rest') => Some (JString s, rest')
            | None => None
            end
          else if (c =? 45) || is_digit c then parse_number (c :: rest)
          else if c =? 91 then
            match skip_ws rest with
            | 93 :: rest' => Some (JArray [], rest')
            | _ =>
                match parse_elements fuel' rest with
                | Some (vs, rest') => Some (JArray vs, rest')
                | None => None
                end
            end
          else if c =? 123 then
            match skip_ws rest with
            | 125 :: rest' => Some (JObject [], rest')
            | _ =>
                match parse_members fuel' rest with
                | Some (ms, rest') => Some (JObject ms, rest')
                | None => None
                end
            end
          else None
      end
  end
with parse_elements (fuel : nat) (cs : list Z) : option (list value * list Z) :=
  match fuel with
  | O => None
  | S fuel' =>
      match parse_value fuel' cs with
      | None => None
      | Some (v, rest) =>
          match skip_ws rest with
          | 93 :: rest' => Some ([v], rest')
          | 44 :: rest' =>
              match parse_elements fuel' rest' with
              | Some (vs, rest'') => Some (v :: vs, rest'')
              | None => None
              end
          | _ => None
          end
      end
  end
with parse_members (fuel : nat) (cs : list Z) : option (list (list Z * value) * list Z) :=
  match fuel with
  | O => None
  | S fuel' =>
      match skip_ws cs with
      | 34 :: rest =>
          match parse_chars rest [] with
          | None => None
          | Some (k, rest1) =>
              match skip_ws rest1 with
              | 58 :: rest2 =>
                  match parse_value fuel' rest2 with
                  | None => None
                  | Some (v, rest3) =>
                      match skip_ws rest3 with
                      | 125 :: rest' => Some ([(k, v)], rest')
                      | 44 :: rest' =>
                          match parse_members fuel' rest' with
                          | Some (ms, rest'') => Some ((k, v) :: ms, rest'')
                          | None => None
                          end
                      | _ => None
                      end
                  end
              | _ => None
              end
          end
      | _ => None
      end
  end.

(** [JSON.parse(text)]: [None] stands for the [SyntaxError] it throws. *)
Definition parse (text : string) : option value :=
  let cs := bytes_of_string text in
  match parse_value (2 * length cs + 2) cs with
  | Some (v, rest) => match skip_ws rest with [] => Some v | _ => None end
  | None => None
  end.

(** A decimal literal is the number zero when its digits are all zero, or
    when it is so small that the nearest double is zero (at most 2^-1075). *)
Definition reads_as_zero (m e : Z) : bool :=
  (m =? 0) || ((e <? 0) && (m * 2 ^ 1075 <=? 10 ^ (- e))).

(** JavaScript truthiness of a parsed value, as tested by [if (v)]. *)
Definition truthy (v : value) : bool :=
  match v with
  | JNull => false
  | JBool b => b
  | JNumber _ m e => negb (reads_as_zero m e)
  | JString s => match s with [] => false | _ => true end
  | JArray _ | JObject _ => true
  end.

End Json.

(** ** The webhook controller *)

Module Controller.
Import Bytes.

(** The result of [Number(header)]: an integer count of milliseconds,
    [NaN] (header absent or not numeric) or an infinity. *)
Inductive jsnum := JNaN | JInt (z : Z) | JPosInf | JNegInf.

(** What the controller throws.  [Error] is any exception that is not an
    [HttpException] (a [SyntaxError], a [TypeError], a client failure). *)
Inductive exn :=
| BadRequestException (message : string)
| NotFoundException (message : string)
| ForbiddenException (message : string)
| UnauthorizedException (message : string)
| InternalServerErrorException (message : string)
| Error (name message : string).

Definition message_of (e : exn) : string :=
  match e with
  | BadRequestException m | NotFoundException m | ForbiddenException m
  | UnauthorizedException m | InternalServerErrorException m | Error _ m => m
  end.

(** The HTTP status the framework answers with; an exception that is not
    an [HttpException] is answered with 500. *)
Definition getStatus (e : exn) : Z :=
  match e with
  | BadRequestException _ => 400
  | UnauthorizedException _ => 401
  | ForbiddenException _ => 403
  | NotFoundException _ => 404
  | InternalServerErrorException _ => 500
  | Error _ _ => 500
  end.

(** What [handleWebhook] returns: an object, or nothing ([return;]). *)
Inductive reply := Body (success : bool) (message : string) | NoBody.

Inductive outcome := Returned (r : reply) | Thrown (e : exn).

(** [@HttpCode(200)] on every normal return. *)
Definition status (o : outcome) : Z :=
  match o with Returned _ => 200 | Thrown e => getStatus e end.

Record request := {
  ip : string;
  x_shopify_topic : option string;
  x_shopify_shop_domain : option string;
  x_shopify_webhook_id : option string;
  x_shopify_hmac_sha256 : option string;
  x_shopify_token : option string;
  x_shopify_nonce : option string;
  x_shopify_timestamp : jsnum;
  rawBody : buffer
}.

Record config := {
  SHOPIFY_IPS : list string;
  SHOPIFY_AUTH_TOKEN : option string;
  SHOPIFY_WEBHOOK_SECRET : option jsstring;
  CB_TIMEOUT : option Z;
  CB_ERROR_THRESHOLD : option Z;
  CB_RESET_TIMEOUT : option Z
}.

Inductive callback := handleOrderCreateWebhook | handleProductUpdateWebhook.

Record handler := { h_topic : string; h_callback : callback }.

Record job := {
  j_name : string;
  j_handler : handler;
  j_topic : string;
  j_domain : string;
  j_payload : jsstring;
  j_webhookId : string
}.

(** The opossum breaker the constructor builds around the handler
    callback: its options and the number of times it has been fired. *)
Record CircuitBreaker := {
  cb_timeout : Z;
  cb_errorThresholdPercentage : Z;
  cb_resetTimeout : Z;
  cb_fired : nat
}.

(** Outcomes of the I/O calls that can reject. *)
Record faults := {
  redis_get_fails : bool;
  queue_add_fails : bool;
  redis_set_fails : bool;
  slack_send_fails : bool
}.

Definition no_faults : faults := Build_faults false false false false.

(** The controller instance together with the stores it talks to.  A
    Redis entry is a value with the instant (ms) at which it expires. *)
Record state := {
  redis : gmap string (string * Z);
  usedNonces : gset string;
  breaker : CircuitBreaker;
  webhookHandlers : list handler;
  webhookQueue : list job;
  slack : list string;
  cloudWatch : list string
}.

Definition set_usedNonces (n : gset string) (st : state) : state :=
  Build_state (redis st) n (breaker st) (webhookHandlers st)
              (webhookQueue st) (slack st) (cloudWatch st).
Definition set_redis (r : gmap string (string * Z)) (st : state) : state :=
  Build_state r (usedNonces st) (breaker st) (webhookHandlers st)
              (webhookQueue st) (slack st) (cloudWatch st).
Definition set_webhookQueue (q : list job) (st : state) : state :=
  Build_state (redis st) (usedNonces st) (breaker st) (webhookHandlers st)
              q (slack st) (cloudWatch st).
Definition set_slack (l : list string) (st : state) : state :=
  Build_state (redis st) (usedNonces st) (breaker st) (webhookHandlers st)
              (webhookQueue st) l (cloudWatch st).
Definition set_cloudWatch (l : list string) (st : state) : state :=
  Build_state (redis st) (usedNonces st) (breaker st) (webhookHandlers st)
              (webhookQueue st) (slack st) l.

(** *** Redis commands *)

Definition redis_get (now : Z) (db : gmap string (string * Z)) (key : string)
  : option string :=
  match db !! key with
  | Some (v, expires) => if now <? expires then Some v else None
  | None => None
  end.

(** [SET key value EX seconds] *)
Definition redis_set_ex (now : Z) (db : gmap string (string * Z))
           (key value : string) (seconds : Z) : gmap string (string * Z) :=
  <[key := (value, now + seconds * 1000)]> db.

(** The three writes of an accepted delivery. *)
Definition enqueue (j : job) (s : state) : state :=
  set_webhookQueue (webhookQueue s ++ [j]) s.
Definition set_mark (now : Z) (webhookId : string) (s : state) : state :=
  set_redis (redis_set_ex now (redis s) webhookId "processed" 3600) s.
Definition log_success (s : state) : state :=
  set_cloudWatch (cloudWatch s ++ ["Webhook processed successfully"%string]) s.

(** The answer to an accepted delivery. *)
Abbreviation accepted := (Body true "Webhook added to processing queue").

(** *** The constructor *)

Definition registerWebhookHandler (h : handler) (hs : list handler) : list handler :=
  hs ++ [h].

Definition registerWebhookHandlers (hs : list handler) : list handler :=
  registerWebhookHandler {| h_topic := "products/update";
                            h_callback := handleProductUpdateWebhook |}
    (registerWebhookHandler {| h_topic := "orders/create";
                               h_callback := handleOrderCreateWebhook |} hs).

Definition new_breaker (cfg : config) : CircuitBreaker :=
  {| cb_timeout := default 5000 (CB_TIMEOUT cfg);
     cb_errorThresholdPercentage := default 50 (CB_ERROR_THRESHOLD cfg);
     cb_resetTimeout := default 30000 (CB_RESET_TIMEOUT cfg);
     cb_fired := 0 |}.

(** A fresh controller over the given Redis contents. *)
Definition new_controller (cfg : config) (db : gmap string (string * Z)) : state :=
  {| redis := db;
     usedNonces := ∅;
     breaker := new_breaker cfg;
     webhookHandlers := registerWebhookHandlers [];
     webhookQueue := [];
     slack := [];
     cloudWatch := [] |}.

(** *** A state-and-exception monad for the request path *)

Definition M (A : Type) : Type := state -> state * (exn + A).

Definition ret {A} (a : A) : M A := fun st => (st, inr a).
Definition throw {A} (e : exn) : M A := fun st => (st, inl e).
Definition bind {A B} (m : M A) (k : A -> M B) : M B :=
  fun st => match m st with
            | (st', inl e) => (st', inl e)
            | (st', inr a) => k a st'
            end.
Definition gets {A} (f : state -> A) : M A := fun st => (st, inr (f st)).
Definition modify (f : state -> state) : M unit := fun st => (f st, inr tt).
Definition check (e : option exn) : M unit :=
  match e with Some x => throw x | None => ret tt end.

(** [post m st Q]: running [m] from [st] ends in a state and a result
    related by [Q]. *)
Definition post {A} (m : M A) (st : state) (Q : state -> exn + A -> Prop) : Prop :=
  Q (m st).1 (m st).2.

Notation "x <- m ;; k" := (bind m (fun x => k))
  (at level 100, m at next level, right associativity).
Notation "m ;;; k" := (bind m (fun _ => k))
  (at level 100, right associativity).

(** *** Header extraction and the security checks *)

(** [!h]: the header is absent or the empty string. *)
Definition missing (h : option string) : bool :=
  match h with
  | Some s => String.eqb s ""
  | None => true
  end.

Fixpoint join (sep : string) (l : list string) : string :=
  match l with
  | [] => ""
  | [x] => x
  | x :: rest => String.append x (String.append sep (join sep rest))
  end.

Definition missingHeaders (req : request) : list string :=
  (if missing (x_shopify_topic req) then ["Topic"%string] else [])
  ++ (if missing (x_shopify_shop_domain req) then ["Domain"%string] else [])
  ++ (if missing (x_shopify_webhook_id req) then ["WebhookId"%string] else []).

Definition extractHeaders (req : request) : exn + (string * string * string) :=
  match missingHeaders req with
  | [] => inr (default ""%string (x_shopify_topic req),
               default ""%string (x_shopify_shop_domain req),
               default ""%string (x_shopify_webhook_id req))
  | ms => inl (BadRequestException
                 (String.append "Missing required HTTP headers: " (join ", " ms)))
  end.

(** [webhookSchema.validate]: the body may be anything; the three headers
    must be non-empty strings, other headers are allowed. *)
Definition webhookSchema_valid (req : request) : bool :=
  negb (missing (x_shopify_topic req))
  && negb (missing (x_shopify_shop_domain req))
  && negb (missing (x_shopify_webhook_id req)).

Definition validateIp (cfg : config) (req : request) : option exn :=
  if decide (ip req ∈ SHOPIFY_IPS cfg) then None
  else Some (ForbiddenException "Unauthorized IP address").

Definition validateAuth (cfg : config) (req : request) : option exn :=
  if missing (x_shopify_token req)
     || negb (bool_decide (x_shopify_token req = SHOPIFY_AUTH_TOKEN cfg))
  then Some (UnauthorizedException "Invalid authentication token")
  else None.

(** [createHmac('sha256', secret).update(rawBody).digest('base64')];
    [createHmac] throws a [TypeError] when the secret is not configured. *)
Definition computeHmacSignature (cfg : config) (rawBodyStr : jsstring) : exn + string :=
  match SHOPIFY_WEBHOOK_SECRET cfg with
  | Some secret =>
      inr (Base64.encode
             (Sha256.hmac_sha256 (Utf8.encode secret) (Utf8.encode rawBodyStr)))
  | None => inl (Error "TypeError" "The key argument must be of type string")
  end.

Definition validateWebhookSignature (cfg : config) (rawBodyStr : jsstring)
           (req : request) : option exn :=
  match computeHmacSignature cfg rawBodyStr with
  | inl e => Some e
  | inr computedSignature =>
      if bool_decide (x_shopify_hmac_sha256 req = Some computedSignature) then None
      else Some (BadRequestException "Invalid HMAC signature")
  end.

(** [currentTime - timestamp > 5 * 60 * 1000]; any comparison with [NaN]
    is false. *)
Definition too_old (currentTime : Z) (timestamp : jsnum) : bool :=
  match timestamp with
  | JInt t => currentTime - t >? 5 * 60 * 1000
  | JNegInf => true
  | JNaN | JPosInf => false
  end.

Definition validateTimestampAndNonce (now : Z) (req : request) : M unit :=
  match x_shopify_nonce req with
  | Some nonce =>
      if String.eqb nonce "" then ret tt
      else
        used <- gets usedNonces;;
        if decide (nonce ∈ used) then
          throw (BadRequestException "Nonce has already been used")
        else if too_old now (x_shopify_timestamp req) then
          throw (BadRequestException "Timestamp too old")
        else modify (set_usedNonces ({[nonce]} ∪ used))
  | None => ret tt
  end.

(** *** The Redis lookup *)

Definition redis_GET (fl : faults) (now : Z) (key : string) : M (option string) :=
  if redis_get_fails fl then throw (Error "Error" "redis.get failed")
  else db <- gets redis;; ret (redis_get now db key).

(** [getCachedData] after its [redis.get] has resolved, at its only call
    site: [fetchData] resolves to [null], so nothing fetched is stored and
    [null] is returned when there is no usable cached text. *)
Definition getCachedData_resume (cachedData : option string) : M Json.value :=
  match cachedData with
  | Some text =>
      if String.eqb text "" then ret Json.JNull
      else match Json.parse text with
           | Some v => ret v
           | None => throw (Error "SyntaxError" "Unexpected token in JSON")
           end
  | None => ret Json.JNull
  end.

Definition getCachedData (fl : faults) (now : Z) (key : string) : M Json.value :=
  cachedData <- redis_GET fl now key;; getCachedData_resume cachedData.

(** *** Failure reporting *)

Definition logToCloudWatch (message : string) : M unit :=
  modify (fun st => set_cloudWatch (cloudWatch st ++ [message]) st).

Definition notifyFailure (fl : faults) (error : exn) : M unit :=
  if slack_send_fails fl then throw (Error "Error" "slack.send failed")
  else modify (fun st =>
         set_slack (slack st ++
           [String.append "Webhook processing failed: " (message_of error)]) st).

Definition handleError (exception : exn) : exn :=
  match exception with
  | BadRequestException _ => exception
  | NotFoundException _ => exception
  | _ => InternalServerErrorException
           "An error occurred while processing the webhook"
  end.

(** The [catch] block of [handleWebhook]. *)
Definition on_error {A} (fl : faults) (error : exn) : M A :=
  notifyFailure fl error;;;
  logToCloudWatch "Webhook processing failed";;;
  throw (handleError error).

(** What the [catch] block leaves behind and what it throws. *)
Definition after_error (fl : faults) (error : exn) (st : state) : state :=
  if slack_send_fails fl then st
  else set_cloudWatch (cloudWatch st ++ ["Webhook processing failed"%string])
         (set_slack (slack st ++
            [String.append "Webhook processing failed: " (message_of error)]) st).
Definition rethrown (fl : faults) (error : exn) : exn :=
  if slack_send_fails fl then Error "Error" "slack.send failed"
  else handleError error.

Definition try_catch {A} (fl : faults) (body : M A) : M A :=
  fun st => match body st with
            | (st', inl e) => on_error fl e st'
            | r => r
            end.

Section Gateway.

(** [DOMPurify.sanitize], a function of the body text. *)
Variable sanitize : jsstring -> jsstring.

Variable cfg : config.

(** *** [handleWebhook], cut at its [await]s *)

(** Up to the [redis.get] of [getCachedData]. *)
Definition checks (fl : faults) (now : Z) (req : request) (webhookId : string)
  : M (option string) :=
  let rawBodyStr := Utf8.toString (rawBody req) in
  check (if webhookSchema_valid req then None
         else Some (BadRequestException "Invalid webhook payload"));;;
  check (validateIp cfg req);;;
  check (validateAuth cfg req);;;
  check (validateWebhookSignature cfg rawBodyStr req);;;
  validateTimestampAndNonce now req;;;
  redis_GET fl now webhookId.

(** From the cached text to [webhookQueue.add]: [Some r] is an early
    return, [None] means the job was added. *)
Definition dispatch (fl : faults) (req : request)
           (topic domain webhookId : string) (cachedData : option string)
  : M (option reply) :=
  isProcessed <- getCachedData_resume cachedData;;
  if Json.truthy isProcessed then
    ret (Some (Body true "Webhook already processed"))
  else
    hs <- gets webhookHandlers;;
    match filter (fun h => h_topic h = topic) hs with
    | [] => ret (Some NoBody)
    | h :: _ =>
        if queue_add_fails fl then throw (Error "Error" "queue.add failed")
        else
          modify (fun st => set_webhookQueue
            (webhookQueue st ++
               [{| j_name := "processWebhook";
                   j_handler := h;
                   j_topic := topic;
                   j_domain := domain;
                   j_payload := sanitize (Utf8.toString (rawBody req));
                   j_webhookId := webhookId |}]) st);;;
          ret None
    end.

(** [redis.set(cacheKey, 'processed', 'EX', 3600)] *)
Definition mark (fl : faults) (now : Z) (webhookId : string) : M unit :=
  if redis_set_fails fl then throw (Error "Error" "redis.set failed")
  else modify (fun st =>
         set_redis (redis_set_ex now (redis st) webhookId "processed" 3600) st).

Definition acknowledge : M reply :=
  logToCloudWatch "Webhook processed successfully";;;
  ret (Body true "Webhook added to processing queue").

Definition handleWebhook (fl : faults) (now : Z) (req : request) : M reply :=
  match extractHeaders req with
  | inl e => throw e
  | inr (topic, domain, webhookId) =>
      try_catch fl
        (cachedData <- checks fl now req webhookId;;
         early <- dispatch fl req topic domain webhookId cachedData;;
         match early with
         | Some r => ret r
         | None => mark fl now webhookId;;; acknowledge
         end)
  end.

Definition outcome_of (r : exn + reply) : outcome :=
  match r with inl e => Thrown e | inr x => Returned x end.

(** *** The same handler, one [await] at a time *)

Inductive phase :=
| Start
| AwaitGet (cachedData : option string)
| AwaitAdd
| AwaitSet
| Finished (o : outcome).

(** Runs one segment under the handler's [try]/[catch]. *)
Definition segment {A} (fl : faults) (body : M A) (next : A -> phase)
           (st : state) : state * phase :=
  match try_catch fl body st with
  | (st', inl e) => (st', Finished (Thrown e))
  | (st', inr a) => (st', next a)
  end.

Definition step (fl : faults) (now : Z) (req : request) (p : phase)
           (st : state) : state * phase :=
  match p with
  | Finished _ => (st, p)
  | _ =>
      match extractHeaders req with
      | inl e => (st, Finished (Thrown e))
      | inr (topic, domain, webhookId) =>
          match p with
          | Start => segment fl (checks fl now req webhookId) AwaitGet st
          | AwaitGet cachedData =>
              segment fl (dispatch fl req topic domain webhookId cachedData)
                (fun early => match early with
                              | Some r => Finished (Returned r)
                              | None => AwaitAdd
                              end) st
          | AwaitAdd => segment fl (mark fl now webhookId) (fun _ => AwaitSet) st
          | AwaitSet => segment fl acknowledge (fun r => Finished (Returned r)) st
          | Finished _ => (st, p)
          end
      end
  end.

(** *** Deliveries in flight together

    Each delivery is a request with the phase it has reached; the
    scheduler picks which one resumes next. *)

Definition task : Type := request * phase.

Definition advance (fl : faults) (now : Z) (i : nat)
           (sys : state * list task) : state * list task :=
  match sys.2 !! i with
  | Some (req, p) =>
      let '(st', p') := step fl now req p sys.1 in
      (st', <[i := (req, p')]> sys.2)
  | None => sys
  end.

Definition run (fl : faults) (now : Z) (schedule : list nat)
           (sys : state * list task) : state * list task :=
  fold_left (fun s i => advance fl now i s) schedule sys.

(** Every delivery takes one step, in order of arrival. *)
Definition sweep (n : nat) : list nat := seq 0 n.

(** All deliveries read the store before any of them writes it. *)
Definition lockstep (n : nat) : list nat :=
  sweep n ++ sweep n ++ sweep n ++ sweep n.

Definition jobs_for (webhookId : string) (st : state) : list job :=
  filter (fun j => j_webhookId j = webhookId) (webhookQueue st).

(** Deliveries handled one after the other, each with the faults and
    the clock of its moment. *)
Definition serve (deliveries : list (faults * Z * request)) (st : state) : state :=
  fold_left (fun s d => (handleWebhook d.1.1 d.1.2 d.2 s).1) deliveries st.

(** The delivery carries a nonce that is already recorded, or a
    timestamp that is too old. *)
Definition replayed (now : Z) (req : request) (st : state) : Prop :=
  exists nonce, x_shopify_nonce req = Some nonce /\ nonce <> ""%string
    /\ (nonce ∈ usedNonces st \/ too_old now (x_shopify_timestamp req) = true).

(** The ways a delivery stops before its job is in the queue: a missing
    header, a failed validation, IP, token or signature check, a replay,
    no handler for the topic, or an enqueue that throws. *)
Definition stopped_before_enqueue (fl : faults) (now : Z) (req : request)
           (st : state) : Prop :=
  (exists e, extractHeaders req = inl e)
  \/ webhookSchema_valid req = false
  \/ validateIp cfg req <> None
  \/ validateAuth cfg req <> None
  \/ validateWebhookSignature cfg (Utf8.toString (rawBody req)) req <> None
  \/ replayed now req st
  \/ (exists topic, x_shopify_topic req = Some topic
        /\ filter (fun h => h_topic h = topic) (webhookHandlers st) = [])
  \/ queue_add_fails fl = true.

(** The signature check as [handleWebhook] applies it to a request. *)
Definition signature_accepted (req : request) : bool :=
  match validateWebhookSignature cfg (Utf8.toString (rawBody req)) req with
  | None => true
  | Some _ => false
  end.

End Gateway.

End Controller.

(** ** Webhook registration *)

Module Service.

(** What one call of [shopifyApi.webhooks.register] does: it resolves
    with [success], resolves without it (carrying the JSON text of
    [response.result]), or rejects. *)
Inductive response :=
| Success
| Failure (result : string)
| Rejected (message : string).

Inductive exn :=
| WebhookRegistrationError (topic shop message : string)
| WebhookUnregistrationError (shop message : string).

Definition message_of (e : exn) : string :=
  match e with
  | WebhookRegistrationError topic shop message =>
      String.append "Failed to register webhook for topic "
        (String.append topic (String.append " in shop "
           (String.append shop (String.append ": " message))))
  | WebhookUnregistrationError shop message =>
      String.append "Failed to unregister webhooks for shop "
        (String.append shop (String.append ": " message))
  end.

(** Everything observable outside the service: the register calls made
    (shop, topic), the subscriptions the platform holds, the delays
    slept, and the metrics emitted (name, topic). *)
Record world := {
  calls : list (string * string);
  subscriptions : list (string * string);
  sleeps : list Z;
  metrics : list (string * string)
}.

Definition empty_world : world := Build_world [] [] [] [].

Definition add_call (c : string * string) (w : world) : world :=
  Build_world (calls w ++ [c]) (subscriptions w) (sleeps w) (metrics w).
Definition add_subscription (c : string * string) (w : world) : world :=
  Build_world (calls w) (subscriptions w ++ [c]) (sleeps w) (metrics w).
Definition add_sleep (ms : Z) (w : world) : world :=
  Build_world (calls w) (subscriptions w) (sleeps w ++ [ms]) (metrics w).
Definition add_metric (m : string * string) (w : world) : world :=
  Build_world (calls w) (subscriptions w) (sleeps w) (metrics w ++ [m]).

(** The options handed to [retry]. *)
Record AttemptOptions := { maxAttempts : nat; delay : Z; factor : Z }.

Definition registration_options : AttemptOptions :=
  {| maxAttempts := 3; delay := 1000; factor := 2 |}.

(** [delay * factor ^ (attemptNum - 1)], computed once [attemptNum] has
    been incremented for the attempt about to be made. *)
Definition calculateDelay (o : AttemptOptions) (attemptNum : nat) : Z :=
  if delay o =? 0 then 0
  else delay o * factor o ^ (Z.of_nat attemptNum - 1).

Definition sleep (ms : Z) (w : world) : world :=
  if ms =? 0 then w else add_sleep ms w.

Section Retry.

Variable o : AttemptOptions.
(** The operation retried: it succeeds or throws an error message. *)
Variable attemptFunc : world -> world * (string + unit).
(** The [handleError] callback, given the error and [context.attemptNum]. *)
Variable handleError : string -> nat -> world -> world.

(** One attempt with [more] attempts remaining after it. *)
Fixpoint makeAttempt (more attemptNum : nat) (w : world) : world * (string + unit) :=
  match attemptFunc w with
  | (w1, inr tt) => (w1, inr tt)
  | (w1, inl err) =>
      let w2 := handleError err attemptNum w1 in
      match more with
      | O => (w2, inl err)
      | S more' =>
          makeAttempt more' (S attemptNum)
            (sleep (calculateDelay o (S attemptNum)) w2)
      end
  end.

Definition retry (w : world) : world * (string + unit) :=
  makeAttempt (maxAttempts o - 1) 0 w.

End Retry.

Section Registration.

(** The platform's answer to a register call, given the calls made so
    far, the shop and the topic. *)
Variable register : list (string * string) -> string -> string -> response.

Definition attempt (shop topic : string) (w : world) : world * (string + unit) :=
  let r := register (calls w) shop topic in
  let w1 := add_call (shop, topic) w in
  match r with
  | Success =>
      (add_metric ("shopify.webhook.registration_success"%string, topic)
         (add_subscription (shop, topic) w1), inr tt)
  | Failure result => (w1, inl result)
  | Rejected message => (w1, inl message)
  end.

Definition on_retry (topic : string) (_ : string) (_ : nat) (w : world) : world :=
  add_metric ("shopify.webhook.registration_retry"%string, topic) w.

Definition registerWebhook (shop topic : string) (w : world) : world * (exn + unit) :=
  match retry registration_options (attempt shop topic) (on_retry topic) w with
  | (w', inr tt) => (w', inr tt)
  | (w', inl message) =>
      (add_metric ("shopify.webhook.registration_failure"%string, topic) w',
       inl (WebhookRegistrationError topic shop message))
  end.

Fixpoint registerWebhooks (shop : string) (webhookTopics : list string) (w : world)
  : world * (exn + unit) :=
  match webhookTopics with
  | [] => (w, inr tt)
  | topic :: rest =>
      match registerWebhook shop topic w with
      | (w', inr tt) => registerWebhooks shop rest w'
      | (w', inl e) => (w', inl e)
      end
  end.

End Registration.

End Service.

(** ** The queue processor *)

Module Queue.

Record config := {
  QUEUE_RETRY_ATTEMPTS : option nat;
  QUEUE_RETRY_BACKOFF_DELAY : option Z
}.

Inductive backoff_type := fixed | exponential.

Record JobOptions := {
  attempts : nat;
  backoff : backoff_type;
  backoff_delay : Z
}.

(** [defaultJobOptions] of the queue 'my-queue'. *)
Definition defaultJobOptions (cfg : config) : JobOptions :=
  {| attempts := default 3%nat (QUEUE_RETRY_ATTEMPTS cfg);
     backoff := exponential;
     backoff_delay := default 1000 (QUEUE_RETRY_BACKOFF_DELAY cfg) |}.

Inductive error :=
| TemporaryErrorException (message : string)
| PermanentErrorException (message : string)
| OtherError (message : string).

Definition error_message (e : error) : string :=
  match e with
  | TemporaryErrorException m | PermanentErrorException m | OtherError m => m
  end.

(** An alert: the job id and the error message. *)
Definition alert : Type := string * string.

Definition triggerAlert (jobId errorMessage : string) (alerts : list alert) : list alert :=
  alerts ++ [(jobId, errorMessage)].

(** [handleError]: [inl e] when it throws, [inr tt] when it returns. *)
Definition handleError (jobId : string) (e : error) (alerts : list alert)
  : list alert * (error + unit) :=
  match e with
  | TemporaryErrorException _ => (alerts, inl e)
  | PermanentErrorException m => (triggerAlert jobId m alerts, inr tt)
  | OtherError _ => (alerts, inl e)
  end.

(** [processStringJob]: [body] is what its [try] block does, [None] when
    it runs to the end.  The [catch] block calls [handleError] and then
    rethrows. *)
Definition processStringJob (jobId : string) (body : option error)
           (alerts : list alert) : list alert * (error + string) :=
  match body with
  | None => (alerts, inr "Processed string"%string)
  | Some e =>
      match handleError jobId e alerts with
      | (alerts', inl thrown) => (alerts', inl thrown)
      | (alerts', inr tt) => (alerts', inl e)
      end
  end.

Inductive job_state := completed | failed.

(** The life of one job: how often the processor ran, the delays between
    runs, the alerts raised, and the set the job ends in. *)
Record trace := {
  invocations : nat;
  waits : list Z;
  alerts_raised : list alert;
  final : job_state
}.

(** Bull's built-in strategies, applied to [attemptsMade]. *)
Definition builtin_backoff (t : backoff_type) (delay : Z) (attemptsMade : nat) : Z :=
  match t with
  | fixed => delay
  | exponential => (2 ^ Z.of_nat attemptsMade - 1) * delay
  end.

Section Lifecycle.

(** The delay the queue inserts after [attemptsMade] failed runs. *)
Variable strategy : Z -> nat -> Z.
Variable opts : JobOptions.
Variable jobId : string.
(** What the job body does on the run that follows [attemptsMade]
    failures. *)
Variable body : nat -> option error.

(** The queue runs the processor; a run that throws is repeated after
    the backoff delay while [attemptsMade < attempts], and the job is
    moved to the failed set otherwise.  [more] counts the runs still
    allowed after this one. *)
Fixpoint work (more attemptsMade : nat) (t : trace) : trace :=
  match processStringJob jobId (body attemptsMade) (alerts_raised t) with
  | (alerts', inr _) =>
      Build_trace (S (invocations t)) (waits t) alerts' completed
  | (alerts', inl _) =>
      match more with
      | O => Build_trace (S (invocations t)) (waits t) alerts' failed
      | S more' =>
          work more' (S attemptsMade)
            (Build_trace (S (invocations t))
               (waits t ++ [strategy (backoff_delay opts) (S attemptsMade)])
               alerts' failed)
      end
  end.

Definition process_job : trace :=
  work (attempts opts - 1) 0 (Build_trace 0 [] [] failed).

End Lifecycle.

Definition is_permanent (e : option error) : bool :=
  match e with Some (PermanentErrorException _) => true | _ => false end.

(** How many of the [n] runs starting at run [from] fail with a
    [PermanentErrorException]. *)
Definition permanent_runs (body : nat -> option error) (from n : nat) : nat :=
  length (List.filter (fun k => is_permanent (body k)) (seq from n)).

End Queue.

(** ** The signature the platform sends, in the specification's words *)

Module Spec.
Import Bytes.

(** [hmac(B, S)]: the base64 HMAC-SHA256 digest of the raw body bytes
    under the shared secret. *)
Definition hmac (B : buffer) (S : jsstring) : string :=
  Base64.encode (Sha256.hmac_sha256 (Utf8.encode S) B).

(** The string [s] with the character at position [i] replaced by [c]. *)
Fixpoint flip (i : nat) (c : ascii) (s : string) : string :=
  match s with
  | EmptyString => EmptyString
  | String d rest =>
      match i with
      | O => String c rest
      | S i' => String d (flip i' c rest)
      end
  end.

End Spec.

(** ** Concrete deliveries used in the examples below *)

Module Fixtures.
Import Bytes Controller.

Definition cfg : config :=
  {| SHOPIFY_IPS := ["23.227.38.1"%string; "10.0.0.7"%string];
     SHOPIFY_AUTH_TOKEN := Some "tok"%string;
     SHOPIFY_WEBHOOK_SECRET := Some (js "secret");
     CB_TIMEOUT := None;
     CB_ERROR_THRESHOLD := None;
     CB_RESET_TIMEOUT := None |}.

(** The eight bytes of the JSON text for an object with [id] 1. *)
Definition body : buffer := [123; 34; 105; 100; 34; 58; 49; 125].

Definition signature : string := "A971iWIMgT8Zj9A9eWfikrFj7wQ16/Qwcc4OlRl2PLc=".

Definition delivery (nonce : option string) (timestamp : jsnum) : request :=
  {| ip := "10.0.0.7";
     x_shopify_topic := Some "orders/create"%string;
     x_shopify_shop_domain := Some "shop.example.com"%string;
     x_shopify_webhook_id := Some "abc-1"%string;
     x_shopify_hmac_sha256 := Some signature;
     x_shopify_token := Some "tok"%string;
     x_shopify_nonce := nonce;
     x_shopify_timestamp := timestamp;
     rawBody := body |}.

Definition plain : request := delivery None JNaN.

Definition without_token : request :=
  {| ip := "10.0.0.7";
     x_shopify_topic := Some "orders/create"%string;
     x_shopify_shop_domain := Some "shop.example.com"%string;
     x_shopify_webhook_id := Some "abc-1"%string;
     x_shopify_hmac_sha256 := Some signature;
     x_shopify_token := None;
     x_shopify_nonce := None;
     x_shopify_timestamp := JNaN;
     rawBody := body |}.

Definition with_body (b : buffer) (sig : string) : request :=
  {| ip := "10.0.0.7";
     x_shopify_topic := Some "orders/create"%string;
     x_shopify_shop_domain := Some "shop.example.com"%string;
     x_shopify_webhook_id := Some "abc-1"%string;
     x_shopify_hmac_sha256 := Some sig;
     x_shopify_token := Some "tok"%string;
     x_shopify_nonce := None;
     x_shopify_timestamp := JNaN;
     rawBody := b |}.

Definition fresh : state := new_controller cfg ∅.

(** The controller after it has accepted [plain] at instant 1000. *)
Definition after_first : state := (handleWebhook id cfg no_faults 1000 plain fresh).1.

Definition the_job : job :=
  {| j_name := "processWebhook";
     j_handler := {| h_topic := "orders/create";
                     h_callback := handleOrderCreateWebhook |};
     j_topic := "orders/create";
     j_domain := "shop.example.com";
     j_payload := Utf8.toString body;
     j_webhookId := "abc-1" |}.

(** A platform that registers every topic except 'products/update'. *)
Definition platform (_ : list (string * string)) (_ topic : string) : Service.response :=
  if String.eqb topic "products/update" then Service.Failure "{}"
  else Service.Success.

Definition queue_defaults : Queue.JobOptions :=
  Queue.defaultJobOptions
    {| Queue.QUEUE_RETRY_ATTEMPTS := None; Queue.QUEUE_RETRY_BACKOFF_DELAY := None |}.

Definition always_permanent (_ : nat) : option Queue.error :=
  Some (Queue.PermanentErrorException "boom").
Definition always_temporary (_ : nat) : option Queue.error :=
  Some (Queue.TemporaryErrorException "later").

End Fixtures.

(** ** Start-up: lists read from the configuration *)

Module Startup.

(** [s.split(sep)] for a one-character separator. *)
Fixpoint split (sep : ascii) (s : string) : list string :=
  match s with
  | EmptyString => [EmptyString]
  | String c rest =>
      if Ascii.eqb c sep then EmptyString :: split sep rest
      else match split sep rest with
           | piece :: pieces => String c piece :: pieces
           | [] => [String c EmptyString]
           end
  end.

(** How often [sep] occurs in [s]. *)
Fixpoint occurrences (sep : ascii) (s : string) : nat :=
  match s with
  | EmptyString => 0
  | String c rest => (if Ascii.eqb c sep then 1 else 0) + occurrences sep rest
  end.

(** [ShopifyWebhooksService.onModuleInit]: the topic list is the value of
    SHOPIFY_WEBHOOK_TOPICS, the empty string when it is not set, split at
    the commas. *)
Definition webhookTopics (SHOPIFY_WEBHOOK_TOPICS : option string) : list string :=
  split "," (default ""%string SHOPIFY_WEBHOOK_TOPICS).

End Startup.

(** ** Requests that differ in one header *)

Module Delivery.
Import Controller.

Definition with_timestamp (t : jsnum) (req : request) : request :=
  {| ip := ip req;
     x_shopify_topic := x_shopify_topic req;
     x_shopify_shop_domain := x_shopify_shop_domain req;
     x_shopify_webhook_id := x_shopify_webhook_id req;
     x_shopify_hmac_sha256 := x_shopify_hmac_sha256 req;
     x_shopify_token := x_shopify_token req;
     x_shopify_nonce := x_shopify_nonce req;
     x_shopify_timestamp := t;
     rawBody := rawBody req |}.

Definition with_topic (topic : string) (req : request) : request :=
  {| ip := ip req;
     x_shopify_topic := Some topic;
     x_shopify_shop_domain := x_shopify_shop_domain req;
     x_shopify_webhook_id := x_shopify_webhook_id req;
     x_shopify_hmac_sha256 := x_shopify_hmac_sha256 req;
     x_shopify_token := x_shopify_token req;
     x_shopify_nonce := x_shopify_nonce req;
     x_shopify_timestamp := x_shopify_timestamp req;
     rawBody := rawBody req |}.

Definition with_ip (address : string) (req : request) : request :=
  {| ip := address;
     x_shopify_topic := x_shopify_topic req;
     x_shopify_shop_domain := x_shopify_shop_domain req;
     x_shopify_webhook_id := x_shopify_webhook_id req;
     x_shopify_hmac_sha256 := x_shopify_hmac_sha256 req;
     x_shopify_token := x_shopify_token req;
     x_shopify_nonce := x_shopify_nonce req;
     x_shopify_timestamp := x_shopify_timestamp req;
     rawBody := rawBody req |}.

(** A controller like [st] with another handler list. *)
Definition with_handlers (hs : list handler) (st : state) : state :=
  Build_state (redis st) (usedNonces st) (breaker st) hs
              (webhookQueue st) (slack st) (cloudWatch st).

(** The job [handleWebhook] builds for a request and a handler. *)
Definition job_of (sanitize : Bytes.jsstring -> Bytes.jsstring) (req : request)
           (h : handler) : job :=
  {| j_name := "processWebhook";
     j_handler := h;
     j_topic := default ""%string (x_shopify_topic req);
     j_domain := default ""%string (x_shopify_shop_domain req);
     j_payload := sanitize (Utf8.toString (rawBody req));
     j_webhookId := default ""%string (x_shopify_webhook_id req) |}.


End Delivery.

(** ** The task queue service *)

Module Tasks.

Record TaskData := { t_type : string; t_payload : string }.

Record BackoffOptions := { b_type : Queue.backoff_type; b_delay : Z }.

(** Job options as a caller passes them: any key may be absent.  [delay]
    stands for the keys the service's defaults do not mention. *)
Record JobOptions := {
  attempts : option nat;
  backoff : option BackoffOptions;
  delay : option Z
}.




Record job := {
  id : nat;
  name : string;
  data : TaskData;
  opts : JobOptions
}.



Inductive exn :=
| JobNotFound (jobId : nat)
| QueueError (message : string).











End Tasks.

(** ** Further concrete inputs *)

Module Samples.
Import Bytes Controller Delivery.

(** A controller whose store holds [text] under 'abc-1' until instant
    100000. *)
Definition holding (text : string) : state :=
  new_controller Fixtures.cfg {[ "abc-1"%string := (text, 100000) ]}.

(** Two handlers registered for the same topic. *)
Definition first_handler : handler :=
  {| h_topic := "orders/create"; h_callback := handleOrderCreateWebhook |}.
Definition second_handler : handler :=
  {| h_topic := "orders/create"; h_callback := handleProductUpdateWebhook |}.
Definition doubly_registered : state :=
  with_handlers
    (registerWebhookHandler second_handler (registerWebhookHandler first_handler []))
    Fixtures.fresh.

(** A platform whose first answer is a rejection. *)
Definition flaky (history : list (string * string)) (_ _ : string) : Service.response :=
  match history with
  | [] => Service.Rejected "timeout"
  | _ => Service.Success
  end.

(** A job body that throws on its first two runs. *)
Definition third_time_lucky (attemptsMade : nat) : option Queue.error :=
  if (attemptsMade <? 2)%nat then Some (Queue.TemporaryErrorException "later") else None.


End Samples.

(** ** Sanity checks of the primitives against published vectors *)

Example sha256_abc :
  Sha256.sha256 (Bytes.bytes_of_string "abc") =
  [0xba; 0x78; 0x16; 0xbf; 0x8f; 0x01; 0xcf; 0xea; 0x41; 0x41; 0x40; 0xde;
   0x5d; 0xae; 0x22; 0x23; 0xb0; 0x03; 0x61; 0xa3; 0x96; 0x17; 0x7a; 0x9c;
   0xb4; 0x10; 0xff; 0x61; 0xf2; 0x00; 0x15; 0xad].
Proof. vm_compute. reflexivity. Qed.

Example hmac_rfc4231_case2 :
  Sha256.hmac_sha256 (Bytes.bytes_of_string "Jefe")
       (Bytes.bytes_of_string "what do ya want for nothing?") =
  [0x5b; 0xdc; 0xc1; 0x46; 0xbf; 0x60; 0x75; 0x4e; 0x6a; 0x04; 0x24; 0x26;
   0x08; 0x95; 0x75; 0xc7; 0x5a; 0x00; 0x3f; 0x08; 0x9d; 0x27; 0x39; 0x83;
   0x9d; 0xec; 0x58; 0xb9; 0x64; 0xec; 0x38; 0x43].
Proof. vm_compute. reflexivity. Qed.

Example hmac_base64_json :
  Base64.encode (Sha256.hmac_sha256 (Bytes.bytes_of_string "secret")
                   (Bytes.bytes_of_string "{'id':1}")) <> ""%string.
Proof. vm_compute. discriminate. Qed.

(** ** Reasoning rules for the request monad *)

Section Rules.
Import Controller.

Context {A B : Type}.

Lemma post_bind (m : M A) (k : A -> M B) st (Q : state -> exn + B -> Prop) :
  post m st (fun st1 r => match r with
                          | inl e => Q st1 (inl e)
                          | inr a => post (k a) st1 Q
                          end) ->
  post (bind m k) st Q.
Proof. unfold post, bind. destruct (m st) as [st1 [e | a]]; simpl; auto. Qed.

Lemma post_try_catch fl (body : M A) st (Q : state -> exn + A -> Prop) :
  post body st (fun st1 r => match r with
                             | inl e => post (on_error fl e) st1 Q
                             | inr a => Q st1 (inr a)
                             end) ->
  post (try_catch fl body) st Q.
Proof. unfold post, try_catch. destruct (body st) as [st1 [e | a]]; simpl; auto. Qed.

Lemma post_ret (a : A) st (Q : state -> exn + A -> Prop) :
  Q st (inr a) -> post (ret a) st Q.
Proof. auto. Qed.

Lemma post_throw (e : exn) st (Q : state -> exn + A -> Prop) :
  Q st (inl e) -> post (throw e) st Q.
Proof. auto. Qed.

Lemma post_gets (f : state -> A) st (Q : state -> exn + A -> Prop) :
  Q st (inr (f st)) -> post (gets f) st Q.
Proof. auto. Qed.

Lemma post_modify (f : state -> state) st (Q : state -> exn + unit -> Prop) :
  Q (f st) (inr tt) -> post (modify f) st Q.
Proof. auto. Qed.

Lemma post_check (o : option exn) st (Q : state -> exn + unit -> Prop) :
  match o with Some e => Q st (inl e) | None => Q st (inr tt) end ->
  post (check o) st Q.
Proof. destruct o; auto. Qed.

Lemma post_weaken (m : M A) st (Q Q' : state -> exn + A -> Prop) :
  (forall st1 r, Q st1 r -> Q' st1 r) -> post m st Q -> post m st Q'.
Proof. unfold post. auto. Qed.

End Rules.

(** One step of symbolic execution of a monadic program under [post]. *)
Ltac wp_step :=
  lazymatch goal with
  | |- Controller.post (Controller.bind _ _) _ _ => apply post_bind
  | |- Controller.post (Controller.try_catch _ _) _ _ => apply post_try_catch
  | |- Controller.post (Controller.ret _) _ _ => apply post_ret
  | |- Controller.post (Controller.throw _) _ _ => apply post_throw
  | |- Controller.post (Controller.gets _) _ _ => apply post_gets
  | |- Controller.post (Controller.modify _) _ _ => apply post_modify
  | |- Controller.post (Controller.check ?o) _ _ =>
      let H := fresh "Hcheck" in
      apply post_check; destruct o eqn:H
  | |- Controller.post (Controller.on_error _ _) _ _ => unfold Controller.on_error
  | |- Controller.post (Controller.notifyFailure _ _) _ _ =>
      unfold Controller.notifyFailure
  | |- Controller.post (Controller.logToCloudWatch _) _ _ =>
      unfold Controller.logToCloudWatch
  | |- Controller.post (Controller.validateTimestampAndNonce _ _) _ _ =>
      unfold Controller.validateTimestampAndNonce
  | |- Controller.post (Controller.redis_GET _ _ _) _ _ =>
      unfold Controller.redis_GET
  | |- Controller.post (Controller.getCachedData_resume _) _ _ =>
      unfold Controller.getCachedData_resume
  | |- Controller.post (Controller.checks _ _ _ _ _) _ _ =>
      unfold Controller.checks
  | |- Controller.post (Controller.dispatch _ _ _ _ _ _ _) _ _ =>
      unfold Controller.dispatch
  | |- Controller.post (Controller.mark _ _ _) _ _ => unfold Controller.mark
  | |- Controller.post Controller.acknowledge _ _ => unfold Controller.acknowledge
  | |- Controller.post (Controller.handleWebhook _ _ _ _ _) _ _ =>
      unfold Controller.handleWebhook
  | |- Controller.post (if ?b then _ else _) _ _ =>
      let H := fresh "Hif" in destruct b eqn:H
  | |- Controller.post (match ?x with _ => _ end) _ _ =>
      let H := fresh "Hmatch" in destruct x eqn:H
  | |- Controller.post (let _ := _ in _) _ _ => cbv zeta
  end.

Ltac wp := repeat (wp_step; cbv beta iota).

(** ** Properties of the request path *)

Section ControllerFacts.
Import Bytes Controller.

Variable sanitize : jsstring -> jsstring.
Variable cfg : config.

(** Whatever [handleWebhook] does, the Redis store is either untouched or
    has just received the 'processed' mark for this delivery, and then the
    job is already in the queue. *)
Lemma handleWebhook_store fl now req st :
  post (handleWebhook sanitize cfg fl now req) st (fun st' r =>
    (redis st' = redis st /\ r <> inr accepted)
    \/ (exists topic domain webhookId h,
          extractHeaders req = inr (topic, domain, webhookId)
          /\ r = inr accepted
          /\ redis st' = redis_set_ex now (redis st) webhookId "processed" 3600
          /\ webhookQueue st' = webhookQueue st ++
               [{| j_name := "processWebhook"; j_handler := h; j_topic := topic;
                   j_domain := domain;
                   j_payload := sanitize (Utf8.toString (rawBody req));
                   j_webhookId := webhookId |}])).
Proof.
  wp; try (left; split; [reflexivity | discriminate]);
    right; do 4 eexists; repeat split; reflexivity.
Qed.

(** Extracted headers are the headers that were sent. *)
Lemma extractHeaders_inr req topic domain webhookId :
  extractHeaders req = inr (topic, domain, webhookId) ->
  x_shopify_topic req = Some topic
  /\ x_shopify_shop_domain req = Some domain
  /\ x_shopify_webhook_id req = Some webhookId
  /\ webhookSchema_valid req = true.
Proof.
  unfold extractHeaders, missingHeaders, webhookSchema_valid, missing.
  destruct (x_shopify_topic req) as [t |], (x_shopify_shop_domain req) as [d |],
    (x_shopify_webhook_id req) as [w |]; cbn;
    try destruct (String.eqb t ""); try destruct (String.eqb d "");
    try destruct (String.eqb w ""); cbn; intros H; inversion H; auto.
Qed.

(** The queue only ever grows by the one job of an accepted delivery. *)
Lemma handleWebhook_queue fl now req st :
  post (handleWebhook sanitize cfg fl now req) st (fun st' r =>
    webhookQueue st' = webhookQueue st
    \/ exists j, webhookQueue st' = webhookQueue st ++ [j]
                 /\ Some (j_webhookId j) = x_shopify_webhook_id req).
Proof.
  wp; try (left; reflexivity); right; eexists; (split; [reflexivity |]);
    cbn [j_webhookId];
    match goal with
    | H : extractHeaders req = inr _ |- _ =>
        apply extractHeaders_inr in H; destruct H as (_ & _ & -> & _)
    end; reflexivity.
Qed.

(** Nonces are only ever added. *)
Lemma handleWebhook_nonces fl now req st :
  post (handleWebhook sanitize cfg fl now req) st (fun st' _ =>
    usedNonces st ⊆ usedNonces st').
Proof. wp; cbn; set_solver. Qed.

Lemma serve_cons d ds st :
  serve sanitize cfg (d :: ds) st =
  serve sanitize cfg ds (handleWebhook sanitize cfg d.1.1 d.1.2 d.2 st).1.
Proof. reflexivity. Qed.

Lemma serve_nonces deliveries st :
  usedNonces st ⊆ usedNonces (serve sanitize cfg deliveries st).
Proof.
  revert st. induction deliveries as [| d ds IH]; intros st; [set_solver |].
  cbn. etrans; [| apply IH].
  apply (handleWebhook_nonces d.1.1 d.1.2 d.2 st).
Qed.

(** No path of [handleWebhook] touches the breaker. *)
Lemma handleWebhook_breaker fl now req st :
  post (handleWebhook sanitize cfg fl now req) st (fun st' _ =>
    breaker st' = breaker st).
Proof. wp; reflexivity. Qed.

Lemma validateAuth_rejects req :
  x_shopify_token req = None \/ x_shopify_token req <> SHOPIFY_AUTH_TOKEN cfg ->
  validateAuth cfg req = Some (UnauthorizedException "Invalid authentication token").
Proof.
  intros [H | H]; unfold validateAuth.
  - rewrite H. reflexivity.
  - rewrite bool_decide_eq_false_2 by assumption.
    rewrite orb_true_r. reflexivity.
Qed.

Lemma parse_processed : Json.parse "processed" = None.
Proof. vm_compute. reflexivity. Qed.

(** The mark of an accepted delivery is what a lookup finds for the next
    hour. *)
Lemma redis_get_marked now later db key :
  later < now + 3600 * 1000 ->
  redis_get later (redis_set_ex now db key "processed" 3600) key = Some "processed"%string.
Proof.
  intros H. unfold redis_get, redis_set_ex. rewrite lookup_insert_eq.
  destruct (Z.ltb_spec later (now + 3600 * 1000)); [reflexivity | lia].
Qed.

(** A delivery that finds the mark never gets a normal answer, and adds
    no job. *)
Lemma handleWebhook_marked fl now req st topic domain webhookId :
  extractHeaders req = inr (topic, domain, webhookId) ->
  redis_get now (redis st) webhookId = Some "processed"%string ->
  post (handleWebhook sanitize cfg fl now req) st (fun st' r =>
    (exists e, r = inl e) /\ webhookQueue st' = webhookQueue st).
Proof.
  intros Hh Hget. unfold handleWebhook. rewrite Hh.
  wp; simplify_eq/=; try (split; [eexists; reflexivity | reflexivity]);
    try congruence.
  all: rewrite ?parse_processed in *; congruence.
Qed.

(** What an accepted delivery went through. *)
Lemma handleWebhook_accepted fl now req st :
  post (handleWebhook sanitize cfg fl now req) st (fun st' r =>
    r = inr accepted ->
    exists topic domain webhookId,
      extractHeaders req = inr (topic, domain, webhookId)
      /\ validateIp cfg req = None
      /\ validateAuth cfg req = None
      /\ validateWebhookSignature cfg (Utf8.toString (rawBody req)) req = None
      /\ redis st' = redis_set_ex now (redis st) webhookId "processed" 3600).
Proof.
  wp; intros Hr; try discriminate Hr;
    do 3 eexists; repeat split; reflexivity.
Qed.

(** With the checks passed, no nonce sent and the mark in place, the
    lookup's [JSON.parse] throws and the answer is a 500. *)
Lemma handleWebhook_marked_500 fl now req st topic domain webhookId :
  extractHeaders req = inr (topic, domain, webhookId) ->
  validateIp cfg req = None ->
  validateAuth cfg req = None ->
  validateWebhookSignature cfg (Utf8.toString (rawBody req)) req = None ->
  x_shopify_nonce req = None ->
  slack_send_fails fl = false ->
  redis_get now (redis st) webhookId = Some "processed"%string ->
  post (handleWebhook sanitize cfg fl now req) st (fun st' r =>
    r = inl (InternalServerErrorException
               "An error occurred while processing the webhook")).
Proof.
  intros Hh Hip Hau Hsig Hn Hsl Hget. unfold handleWebhook. rewrite Hh.
  destruct (extractHeaders_inr _ _ _ _ Hh) as (_ & _ & _ & Hv).
  unfold checks. rewrite Hv, Hip, Hau, Hsig.
  unfold validateTimestampAndNonce. rewrite Hn.
  wp; simplify_eq/=; try reflexivity; try congruence.
  all: rewrite ?parse_processed in *; congruence.
Qed.

(** C3: a delivery whose webhook id was accepted less than an hour ago is
    not answered with a 200 'already processed': the lookup finds the text
    'processed', [JSON.parse] throws on it, and the redelivery ends in an
    exception -- a 500 when the request carries no nonce -- although no
    second job is enqueued. *)
Theorem redelivery_within_ttl_is_an_error fl0 fl1 t0 t1 req st :
  post (handleWebhook sanitize cfg fl0 t0 req) st (fun st1 r1 =>
    r1 = inr accepted ->
    t1 < t0 + 3600 * 1000 ->
    post (handleWebhook sanitize cfg fl1 t1 req) st1 (fun st2 r2 =>
      (exists e, r2 = inl e)
      /\ webhookQueue st2 = webhookQueue st1
      /\ (x_shopify_nonce req = None -> slack_send_fails fl1 = false ->
          r2 = inl (InternalServerErrorException
                      "An error occurred while processing the webhook")
          /\ status (outcome_of r2) = 500))).
Proof.
  pose proof (handleWebhook_accepted fl0 t0 req st) as Hacc.
  unfold post in Hacc |- *.
  destruct (handleWebhook sanitize cfg fl0 t0 req st) as [st1 r1]; cbn [fst snd] in *.
  intros Hr Ht. destruct (Hacc Hr) as (topic & domain & wid & Hh & Hip & Hau & Hsig & Hdb).
  assert (Hget : redis_get t1 (redis st1) wid = Some "processed"%string).
  { rewrite Hdb. apply redis_get_marked. exact Ht. }
  pose proof (handleWebhook_marked fl1 t1 req st1 topic domain wid Hh Hget) as [He Hq].
  split; [exact He |]. split; [exact Hq |].
  intros Hn Hsl.
  pose proof (handleWebhook_marked_500 fl1 t1 req st1 topic domain wid
                Hh Hip Hau Hsig Hn Hsl Hget) as H5.
  unfold post in H5. rewrite H5. split; reflexivity.
Qed.

(** C4: no delivery is ever routed through the breaker.  The constructor
    builds it around the handler callback, but [handleWebhook] puts the
    job on the queue directly: after any sequence of deliveries the
    breaker is still as constructed and has never been fired. *)
Theorem breaker_is_never_fired deliveries db :
  breaker (serve sanitize cfg deliveries (new_controller cfg db)) = new_breaker cfg
  /\ cb_fired (breaker (serve sanitize cfg deliveries (new_controller cfg db))) = 0%nat.
Proof.
  assert (H : forall st, breaker (serve sanitize cfg deliveries st) = breaker st).
  { induction deliveries as [| d ds IH]; intros st; [reflexivity |].
    rewrite serve_cons, IH. apply (handleWebhook_breaker d.1.1 d.1.2 d.2 st). }
  rewrite H. split; reflexivity.
Qed.

Lemma validateTimestampAndNonce_used now req st nonce :
  x_shopify_nonce req = Some nonce -> nonce <> ""%string ->
  nonce ∈ usedNonces st ->
  validateTimestampAndNonce now req st =
    (st, inl (BadRequestException "Nonce has already been used")).
Proof.
  intros Hn Hne Hin. unfold validateTimestampAndNonce. rewrite Hn.
  destruct (String.eqb_spec nonce ""); [contradiction |].
  unfold bind, gets. destruct (decide (nonce ∈ usedNonces st)); [reflexivity | contradiction].
Qed.

Lemma validateTimestampAndNonce_records now req st st1 nonce :
  x_shopify_nonce req = Some nonce -> nonce <> ""%string ->
  validateTimestampAndNonce now req st = (st1, inr tt) ->
  nonce ∈ usedNonces st1.
Proof.
  intros Hn Hne. unfold validateTimestampAndNonce. rewrite Hn.
  destruct (String.eqb_spec nonce ""); [contradiction |].
  unfold bind, gets, throw, modify.
  destruct (decide (nonce ∈ usedNonces st)); [discriminate |].
  destruct (too_old now (x_shopify_timestamp req)); [discriminate |].
  intros H. inversion H; subst. cbn. set_solver.
Qed.

(** A delivery whose replay check throws never gets a normal answer. *)
Lemma handleWebhook_replay fl now req st e :
  validateTimestampAndNonce now req st = (st, inl e) ->
  post (handleWebhook sanitize cfg fl now req) st (fun st' r =>
    (exists e', r = inl e')
    /\ redis st' = redis st /\ webhookQueue st' = webhookQueue st
    /\ usedNonces st' = usedNonces st).
Proof.
  intros Hv. unfold handleWebhook.
  destruct (extractHeaders req) as [e0 | [[topic domain] wid]].
  { apply post_throw. repeat split; eauto. }
  apply post_try_catch. apply post_bind. unfold checks.
  repeat (apply post_bind; apply post_check;
          match goal with |- match ?o with _ => _ end => destruct o end;
          [ wp; repeat split; eauto |]).
  apply post_bind. unfold post at 1. rewrite Hv. cbn [fst snd].
  wp; repeat split; eauto.
Qed.

(** With the earlier checks passed, the 400 of the replay check is the
    answer. *)
Lemma handleWebhook_replay_400 fl now req st m topic domain webhookId :
  extractHeaders req = inr (topic, domain, webhookId) ->
  validateIp cfg req = None ->
  validateAuth cfg req = None ->
  validateWebhookSignature cfg (Utf8.toString (rawBody req)) req = None ->
  slack_send_fails fl = false ->
  validateTimestampAndNonce now req st = (st, inl (BadRequestException m)) ->
  post (handleWebhook sanitize cfg fl now req) st (fun _ r =>
    r = inl (BadRequestException m) /\ status (outcome_of r) = 400).
Proof.
  intros Hh Hip Hau Hsig Hsl Hv. unfold handleWebhook. rewrite Hh.
  destruct (extractHeaders_inr _ _ _ _ Hh) as (_ & _ & _ & Hvalid).
  apply post_try_catch. apply post_bind. unfold checks.
  rewrite Hvalid, Hip, Hau, Hsig.
  do 4 (apply post_bind; apply post_check).
  apply post_bind. unfold post at 1. rewrite Hv. cbn [fst snd].
  unfold on_error, notifyFailure. rewrite Hsl.
  wp. split; reflexivity.
Qed.

(** C7: a nonce is accepted at most once, for good.  The controller keeps
    accepted nonces in an in-memory set from which nothing is ever removed:
    whatever deliveries are served in between and however much later the
    nonce comes back, the check throws 'Nonce has already been used' and
    the delivery is refused -- with that 400 when its other checks pass. *)
Theorem nonce_is_never_accepted_again now req st st1 nonce :
  x_shopify_nonce req = Some nonce -> nonce <> ""%string ->
  validateTimestampAndNonce now req st = (st1, inr tt) ->
  forall deliveries later req' fl,
    x_shopify_nonce req' = Some nonce ->
    let st2 := serve sanitize cfg deliveries st1 in
    validateTimestampAndNonce later req' st2 =
      (st2, inl (BadRequestException "Nonce has already been used"))
    /\ post (handleWebhook sanitize cfg fl later req') st2 (fun st3 r =>
         (exists e, r = inl e) /\ webhookQueue st3 = webhookQueue st2)
    /\ (forall topic domain webhookId,
          extractHeaders req' = inr (topic, domain, webhookId) ->
          validateIp cfg req' = None ->
          validateAuth cfg req' = None ->
          validateWebhookSignature cfg (Utf8.toString (rawBody req')) req' = None ->
          slack_send_fails fl = false ->
          post (handleWebhook sanitize cfg fl later req') st2 (fun _ r =>
            r = inl (BadRequestException "Nonce has already been used")
            /\ status (outcome_of r) = 400)).
Proof.
  intros Hn Hne Hok deliveries later req' fl Hn' st2.
  assert (Hin : nonce ∈ usedNonces st2).
  { apply (serve_nonces deliveries st1).
    exact (validateTimestampAndNonce_records now req st st1 nonce Hn Hne Hok). }
  pose proof (validateTimestampAndNonce_used later req' st2 nonce Hn' Hne Hin) as Hrej.
  split; [exact Hrej |]. split.
  - eapply post_weaken; [| apply (handleWebhook_replay fl later req' st2 _ Hrej)].
    intros st3 r (He & _ & Hq & _). auto.
  - intros topic domain wid Hh Hip Hau Hsig Hsl.
    exact (handleWebhook_replay_400 fl later req' st2 _ topic domain wid
             Hh Hip Hau Hsig Hsl Hrej).
Qed.

(** C8: with a nonce present, a timestamp more than five minutes older
    than the current time is refused with a 400: by 'Nonce has already been
    used' when the nonce is already recorded, by 'Timestamp too old'
    otherwise; the delivery is refused and leaves store, queue and nonces as
    they were.  A timestamp that is not older than that -- one in the future
    included, however far -- passes with a fresh nonce, which is then
    recorded.  The five minutes are a constant of the code. *)
Theorem old_timestamp_is_refused now req st nonce t :
  x_shopify_nonce req = Some nonce -> nonce <> ""%string ->
  x_shopify_timestamp req = JInt t ->
  let m := if decide (nonce ∈ usedNonces st)
           then "Nonce has already been used"%string
           else "Timestamp too old"%string in
  (now - t > 5 * 60 * 1000 ->
     validateTimestampAndNonce now req st = (st, inl (BadRequestException m))
     /\ (forall fl, post (handleWebhook sanitize cfg fl now req) st (fun st' r =>
           (exists e, r = inl e)
           /\ redis st' = redis st /\ webhookQueue st' = webhookQueue st
           /\ usedNonces st' = usedNonces st))
     /\ (forall fl topic domain webhookId,
           extractHeaders req = inr (topic, domain, webhookId) ->
           validateIp cfg req = None ->
           validateAuth cfg req = None ->
           validateWebhookSignature cfg (Utf8.toString (rawBody req)) req = None ->
           slack_send_fails fl = false ->
           post (handleWebhook sanitize cfg fl now req) st (fun _ r =>
             r = inl (BadRequestException m) /\ status (outcome_of r) = 400)))
  /\ (now - t <= 5 * 60 * 1000 -> nonce ∉ usedNonces st ->
        validateTimestampAndNonce now req st =
          (set_usedNonces ({[nonce]} ∪ usedNonces st) st, inr tt)).
Proof.
  intros Hn Hne Hts m. split.
  - intros Hold.
    assert (Hv : validateTimestampAndNonce now req st = (st, inl (BadRequestException m))).
    { unfold validateTimestampAndNonce, m. rewrite Hn, Hts.
      destruct (String.eqb_spec nonce ""); [contradiction |].
      unfold bind, gets, throw.
      destruct (decide (nonce ∈ usedNonces st)); [reflexivity |].
      unfold too_old. destruct (Z.gtb_spec (now - t) (5 * 60 * 1000)); [reflexivity | lia]. }
    split; [exact Hv |]. split.
    + intros fl. apply (handleWebhook_replay fl now req st _ Hv).
    + intros fl topic domain wid Hh Hip Hau Hsig Hsl.
      exact (handleWebhook_replay_400 fl now req st m topic domain wid
               Hh Hip Hau Hsig Hsl Hv).
  - intros Hfresh Hnew.
    unfold validateTimestampAndNonce. rewrite Hn, Hts.
    destruct (String.eqb_spec nonce ""); [contradiction |].
    unfold bind, gets, throw, modify.
    destruct (decide (nonce ∈ usedNonces st)); [contradiction |].
    unfold too_old. destruct (Z.gtb_spec (now - t) (5 * 60 * 1000)); [lia | reflexivity].
Qed.

(** C9: a delivery whose token is absent or wrong, sent from an allowed
    address with the required headers, is refused before the lookup and
    the enqueue -- but the answer is a 500, not a 401: the
    [UnauthorizedException] thrown by [validateAuth] is caught by the
    handler's own [catch], and [handleError] lets only 400 and 404
    through. *)
Theorem bad_token_is_answered_500 fl now req st topic domain webhookId :
  extractHeaders req = inr (topic, domain, webhookId) ->
  validateIp cfg req = None ->
  x_shopify_token req = None \/ x_shopify_token req <> SHOPIFY_AUTH_TOKEN cfg ->
  slack_send_fails fl = false ->
  post (handleWebhook sanitize cfg fl now req) st (fun st' r =>
    r = inl (InternalServerErrorException
               "An error occurred while processing the webhook")
    /\ status (outcome_of r) = 500
    /\ redis st' = redis st /\ webhookQueue st' = webhookQueue st
    /\ usedNonces st' = usedNonces st).
Proof.
  intros Hh Hip Htok Hsl. unfold handleWebhook. rewrite Hh.
  destruct (extractHeaders_inr _ _ _ _ Hh) as (_ & _ & _ & Hv).
  unfold checks. rewrite Hv, Hip, (validateAuth_rejects req Htok).
  wp; simplify_eq/=; try congruence. repeat split; reflexivity.
Qed.

(** C10: the 'processed' mark is written only once the job is in the
    queue.  Either the delivery was accepted, its job was appended and the
    mark set; or the Redis store is exactly what it was, so a later lookup
    of the same id finds what it would have found before.  A delivery
    that fails validation, the IP, token or signature check or the replay
    check, matches no handler, or whose enqueue throws, is of the second
    kind. *)
Theorem dedup_mark_follows_enqueue fl now req st :
  post (handleWebhook sanitize cfg fl now req) st (fun st' r =>
    ((r = inr accepted
      /\ exists j, webhookQueue st' = webhookQueue st ++ [j]
           /\ Some (j_webhookId j) = x_shopify_webhook_id req
           /\ redis st' = redis_set_ex now (redis st) (j_webhookId j) "processed" 3600)
     \/ (r <> inr accepted /\ redis st' = redis st
         /\ forall t key, redis_get t (redis st') key = redis_get t (redis st) key))
    /\ (stopped_before_enqueue cfg fl now req st ->
        r <> inr accepted /\ redis st' = redis st
        /\ webhookQueue st' = webhookQueue st)).
Proof.
  pose proof (handleWebhook_store fl now req st) as Hs.
  assert (Hstop : stopped_before_enqueue cfg fl now req st ->
            post (handleWebhook sanitize cfg fl now req) st (fun st' r =>
              r <> inr accepted /\ redis st' = redis st
              /\ webhookQueue st' = webhookQueue st)).
  { intros Hc. wp; try (split; [discriminate | split; reflexivity]); exfalso;
      destruct Hc as [[e He] | [Hc | [Hc | [Hc | [Hc | [Hc | [Hc | Hc]]]]]]];
      try congruence.
    all: try (match goal with
              | H : (if webhookSchema_valid _ then _ else _) = None |- _ =>
                  rewrite Hc in H; discriminate H
              end).
    all: try (destruct Hc as (nonce & Hn & Hne & Hc);
              match goal with
              | H : x_shopify_nonce _ = Some _, H' : x_shopify_nonce _ = _ |- _ =>
                  rewrite H in H'; simplify_eq
              end;
              first [ match goal with
                      | H : String.eqb _ _ = true |- _ =>
                          apply String.eqb_eq in H; contradiction
                      end
                    | destruct Hc; [contradiction | congruence] ]).
    all: try (destruct Hc as (topic & Ht & Hf);
              match goal with
              | H : extractHeaders _ = inr _ |- _ =>
                  apply extractHeaders_inr in H; destruct H as (Ht' & _)
              end; rewrite Ht in Ht'; simplify_eq;
              cbn [webhookHandlers set_usedNonces] in *; congruence). }
  unfold post in *.
  destruct (handleWebhook sanitize cfg fl now req st) as [st' r]; cbn [fst snd] in *.
  split; [| exact Hstop].
  destruct Hs as [[Hdb Hr] | (topic & domain & wid & h & Hh & Hr & Hdb & Hq)].
  - right. split; [exact Hr |]. split; [exact Hdb |]. intros. rewrite Hdb. reflexivity.
  - left. split; [exact Hr |]. eexists. split; [exact Hq |].
    apply extractHeaders_inr in Hh. destruct Hh as (_ & _ & -> & _).
    split; [reflexivity | exact Hdb].
Qed.

End ControllerFacts.

(** ** Deliveries in flight together *)

Section Concurrency.
Import Bytes Controller.

Variable sanitize : jsstring -> jsstring.
Variable cfg : config.

Lemma on_error_eq {A} fl e s :
  @on_error A fl e s = (after_error fl e s, inl (rethrown fl e)).
Proof.
  unfold on_error, notifyFailure, logToCloudWatch, bind, throw, modify,
    after_error, rethrown.
  destruct (slack_send_fails fl); reflexivity.
Qed.

Lemma segment_eq {A} fl (body : M A) next s :
  segment fl body next s =
  match body s with
  | (s', inl e) => (after_error fl e s', Finished (Thrown (rethrown fl e)))
  | (s', inr a) => (s', next a)
  end.
Proof.
  unfold segment, try_catch. destruct (body s) as [s' [e | a]]; [| reflexivity].
  rewrite on_error_eq. reflexivity.
Qed.

Lemma advance_single fl now req p s :
  advance sanitize cfg fl now 0 (s, [(req, p)]) =
  ((step sanitize cfg fl now req p s).1, [(req, (step sanitize cfg fl now req p s).2)]).
Proof.
  unfold advance. cbn [fst snd lookup list_lookup].
  destruct (step sanitize cfg fl now req p s). reflexivity.
Qed.

(** A delivery stepped four times on its own is [handleWebhook]. *)
Lemma single_delivery_is_handleWebhook fl now req st :
  run sanitize cfg fl now [0; 0; 0; 0]%nat (st, [(req, Start)]) =
  ((handleWebhook sanitize cfg fl now req st).1,
   [(req, Finished (outcome_of (handleWebhook sanitize cfg fl now req st).2))]).
Proof.
  unfold run. cbn [fold_left]. unfold handleWebhook.
  destruct (extractHeaders req) as [e | [[topic domain] wid]] eqn:Hh.
  { rewrite advance_single. unfold step at 1 2. rewrite Hh.
    cbn [fst snd]. rewrite !advance_single. reflexivity. }
  assert (Hstep : forall p s, step sanitize cfg fl now req p s =
            match p with
            | Start => segment fl (checks cfg fl now req wid) AwaitGet s
            | AwaitGet cachedData =>
                segment fl (dispatch sanitize fl req topic domain wid cachedData)
                  (fun early => match early with
                                | Some r => Finished (Returned r)
                                | None => AwaitAdd
                                end) s
            | AwaitAdd => segment fl (mark fl now wid) (fun _ => AwaitSet) s
            | AwaitSet => segment fl acknowledge (fun r => Finished (Returned r)) s
            | Finished _ => (s, p)
            end).
  { intros p s. unfold step. rewrite Hh. destruct p; reflexivity. }
  unfold try_catch, bind.
  rewrite advance_single, Hstep, segment_eq.
  destruct (checks cfg fl now req wid st) as [s1 [e | c]]; cbn [fst snd].
  { rewrite on_error_eq, !advance_single, !Hstep. reflexivity. }
  rewrite advance_single, Hstep, segment_eq.
  destruct (dispatch sanitize fl req topic domain wid c s1) as [s2 [e | [r |]]];
    cbn [fst snd].
  { rewrite on_error_eq, !advance_single, !Hstep. reflexivity. }
  { rewrite !advance_single, !Hstep. reflexivity. }
  rewrite advance_single, Hstep, segment_eq.
  destruct (mark fl now wid s2) as [s3 [e | []]]; cbn [fst snd].
  { rewrite on_error_eq, !advance_single, !Hstep. reflexivity. }
  rewrite advance_single, Hstep, segment_eq.
  destruct (acknowledge s3) as [s4 [e | r]]; cbn [fst snd].
  { rewrite on_error_eq. reflexivity. }
  reflexivity.
Qed.

(** One sweep over deliveries that are all in the same phase, when a step
    from that phase acts on the state as [f] does. *)
Lemma sweep_from fl now req (p p' : phase) (f : state -> state) (Inv : state -> Prop) :
  (forall s, Inv s -> step sanitize cfg fl now req p s = (f s, p') /\ Inv (f s)) ->
  forall m k s, Inv s ->
    run sanitize cfg fl now (seq k m)
        (s, replicate k (req, p') ++ replicate m (req, p))
    = (Nat.iter m f s, replicate (k + m) (req, p'))
    /\ Inv (Nat.iter m f s).
Proof.
  intros Hstep. induction m as [| m IH]; intros k s Hs.
  - cbn. rewrite app_nil_r, Nat.add_0_r. auto.
  - destruct (Hstep s Hs) as [Hf Hs'].
    cbn [seq]. unfold run. cbn [fold_left]. fold (run sanitize cfg fl now).
    unfold advance at 2. cbn [fst snd].
    rewrite lookup_app_r by (rewrite length_replicate; lia).
    rewrite length_replicate, Nat.sub_diag. cbn [replicate lookup list_lookup].
    rewrite Hf.
    rewrite insert_app_r_alt by (rewrite length_replicate; lia).
    rewrite length_replicate, Nat.sub_diag. cbn [insert list_insert].
    rewrite (cons_middle (req, p')), app_assoc, <- replicate_S_end.
    destruct (IH (S k) (f s) Hs') as [Hrun Hinv].
    change (Nat.iter (S m) f s) with (f (Nat.iter m f s)).
    rewrite <- Nat.iter_swap.
    split; [| exact Hinv].
    etrans; [exact Hrun |].
    replace (S k + m)%nat with (k + S m)%nat by lia. reflexivity.
Qed.

Lemma sweep_all fl now req (p p' : phase) (f : state -> state) (Inv : state -> Prop) n s :
  (forall s, Inv s -> step sanitize cfg fl now req p s = (f s, p') /\ Inv (f s)) ->
  Inv s ->
  run sanitize cfg fl now (sweep n) (s, replicate n (req, p))
  = (Nat.iter n f s, replicate n (req, p'))
  /\ Inv (Nat.iter n f s).
Proof.
  intros Hstep Hs. exact (sweep_from fl now req p p' f Inv Hstep n 0%nat s Hs).
Qed.

Lemma run_app fl now s1 s2 sys :
  run sanitize cfg fl now (s1 ++ s2) sys =
  run sanitize cfg fl now s2 (run sanitize cfg fl now s1 sys).
Proof. apply fold_left_app. Qed.

Lemma iter_enqueue j n s :
  webhookQueue (Nat.iter n (enqueue j) s) = webhookQueue s ++ replicate n j.
Proof.
  induction n as [| n IH]; cbn [Nat.iter nat_rect].
  - cbn. rewrite app_nil_r. reflexivity.
  - unfold enqueue at 1. cbn [webhookQueue set_webhookQueue].
    fold (Nat.iter n (enqueue j) s).
    rewrite IH, replicate_S_end, app_assoc. reflexivity.
Qed.

Lemma iter_set_mark_queue now wid n s :
  webhookQueue (Nat.iter n (set_mark now wid) s) = webhookQueue s.
Proof. induction n as [| n IH]; [reflexivity | exact IH]. Qed.

Lemma iter_log_success_queue n s :
  webhookQueue (Nat.iter n log_success s) = webhookQueue s.
Proof. induction n as [| n IH]; [reflexivity | exact IH]. Qed.

(** C1: the dedup test is a read followed, after the enqueue, by a
    separate write.  When n deliveries of one webhook id are in flight
    together and each reads the store before any of them has written its
    mark, every one of them passes the test, is answered 200 and enqueues
    a job of its own: n jobs for one id.  A delivery that has read
    'no entry' enqueues whatever the store holds by then. *)
Theorem concurrent_deliveries_all_enqueue n now req st topic domain webhookId h hs :
  extractHeaders req = inr (topic, domain, webhookId) ->
  checks cfg no_faults now req webhookId st = (st, inr None) ->
  filter (fun h => h_topic h = topic) (webhookHandlers st) = h :: hs ->
  let j := {| j_name := "processWebhook"; j_handler := h; j_topic := topic;
              j_domain := domain;
              j_payload := sanitize (Utf8.toString (rawBody req));
              j_webhookId := webhookId |} in
  (exists st',
      run sanitize cfg no_faults now (lockstep n) (st, replicate n (req, Start))
      = (st', replicate n (req, Finished (Returned accepted)))
      /\ webhookQueue st' = webhookQueue st ++ replicate n j
      /\ length (jobs_for webhookId st') = (length (jobs_for webhookId st) + n)%nat)
  /\ (forall s, webhookHandlers s = webhookHandlers st ->
        step sanitize cfg no_faults now req (AwaitGet None) s = (enqueue j s, AwaitAdd)).
Proof.
  intros Hh Hchecks Hfilter j.
  assert (H2 : forall s, webhookHandlers s = webhookHandlers st ->
            step sanitize cfg no_faults now req (AwaitGet None) s = (enqueue j s, AwaitAdd)
            /\ webhookHandlers (enqueue j s) = webhookHandlers st).
  { intros s Hs. unfold step. rewrite Hh. unfold segment, try_catch, dispatch.
    cbn [getCachedData_resume]. unfold bind, ret, gets, modify. cbn.
    rewrite Hs, Hfilter. cbn. auto. }
  split; [| intros s Hs; apply (H2 s Hs)].
  assert (H1 : forall s, s = st ->
            step sanitize cfg no_faults now req Start s = (s, AwaitGet None) /\ s = st).
  { intros s ->. unfold step. rewrite Hh. unfold segment, try_catch.
    rewrite Hchecks. auto. }
  assert (H3 : forall s, True ->
            step sanitize cfg no_faults now req AwaitAdd s
            = (set_mark now webhookId s, AwaitSet) /\ True).
  { intros s _. unfold step. rewrite Hh. split; reflexivity. }
  assert (H4 : forall s, True ->
            step sanitize cfg no_faults now req AwaitSet s
            = (log_success s, Finished (Returned accepted)) /\ True).
  { intros s _. unfold step. rewrite Hh. split; reflexivity. }
  destruct (sweep_all no_faults now req Start (AwaitGet None) (fun s => s)
              (fun s => s = st) n st H1 eq_refl) as [R1 _].
  assert (Hid : Nat.iter n (fun s : state => s) st = st)
    by (clear; induction n as [| n IH]; [reflexivity | exact IH]).
  rewrite Hid in R1.
  destruct (sweep_all no_faults now req (AwaitGet None) AwaitAdd (enqueue j)
              (fun s => webhookHandlers s = webhookHandlers st) n st H2 eq_refl)
    as [R2 _].
  destruct (sweep_all no_faults now req AwaitAdd AwaitSet (set_mark now webhookId)
              (fun _ => True) n (Nat.iter n (enqueue j) st) H3 I) as [R3 _].
  destruct (sweep_all no_faults now req AwaitSet (Finished (Returned accepted))
              log_success (fun _ => True) n
              (Nat.iter n (set_mark now webhookId) (Nat.iter n (enqueue j) st)) H4 I)
    as [R4 _].
  eexists. split.
  - unfold lockstep. rewrite !run_app, R1, R2, R3, R4. reflexivity.
  - assert (Hq : webhookQueue
                   (Nat.iter n log_success
                      (Nat.iter n (set_mark now webhookId) (Nat.iter n (enqueue j) st)))
                 = webhookQueue st ++ replicate n j).
    { rewrite iter_log_success_queue, iter_set_mark_queue, iter_enqueue. reflexivity. }
    split; [exact Hq |].
    unfold jobs_for. rewrite Hq, filter_app, length_app. f_equal.
    clear. induction n as [| n IH]; [reflexivity |].
    cbn [replicate]. rewrite filter_cons_True by reflexivity.
    cbn [length]. rewrite IH. reflexivity.
Qed.

End Concurrency.

(** ** The signature check *)

Section Signature.
Import Bytes Controller.

Variable cfg : config.

Lemma flip_changes i c d s :
  String.get i s = Some d -> c <> d -> Spec.flip i c s <> s.
Proof.
  revert i. induction s as [| a s IH]; intros i Hget Hne; [discriminate |].
  destruct i as [| i]; cbn in *.
  - inversion Hget; subst. intros H. inversion H. contradiction.
  - intros H. inversion H as [H']. exact (IH i Hget Hne H').
Qed.

(** Text made of ASCII bytes survives [toString] and re-encoding. *)
Lemma ascii_roundtrip (B : buffer) :
  Forall (fun b => 0 <= b <= 0x7F) B -> Utf8.encode (Utf8.toString B) = B.
Proof.
  unfold Utf8.toString. induction 1 as [| b B Hb _ IH]; [reflexivity |].
  cbn [Utf8.decode_from Utf8.feed Utf8.d_need Utf8.d_init]. unfold Utf8.lead.
  destruct (Z.leb_spec b 0x7F); [| lia].
  cbn [app]. unfold Utf8.encode in *. cbn [flat_map]. rewrite IH.
  unfold Utf8.encode_cp. destruct (Z.ltb_spec b 0x80); [reflexivity | lia].
Qed.

(** C2: the check accepts exactly one signature, the base64 HMAC-SHA256
    digest of the body text as decoded by [toString] and encoded again.
    So a body that survives that conversion unchanged -- any body of ASCII
    bytes does -- verifies against [hmac(B, S)]; any other signature -- the right one with a single byte
    changed, for one -- is refused with 'Invalid HMAC signature'; and a
    changed body is refused exactly when its own digest differs from the
    signature supplied. *)
Theorem signature_check_accepts_only_the_digest S req :
  SHOPIFY_WEBHOOK_SECRET cfg = Some S ->
  let B := rawBody req in
  let digest := Spec.hmac (Utf8.encode (Utf8.toString B)) S in
  (validateWebhookSignature cfg (Utf8.toString B) req = None
   <-> x_shopify_hmac_sha256 req = Some digest)
  /\ (x_shopify_hmac_sha256 req <> Some digest ->
      validateWebhookSignature cfg (Utf8.toString B) req
      = Some (BadRequestException "Invalid HMAC signature"))
  /\ (Utf8.encode (Utf8.toString B) = B ->
      x_shopify_hmac_sha256 req = Some (Spec.hmac B S) ->
      validateWebhookSignature cfg (Utf8.toString B) req = None)
  /\ (Forall (fun b => 0 <= b <= 0x7F) B ->
      x_shopify_hmac_sha256 req = Some (Spec.hmac B S) ->
      validateWebhookSignature cfg (Utf8.toString B) req = None)
  /\ (forall i c d,
        String.get i digest = Some d -> c <> d ->
        x_shopify_hmac_sha256 req = Some (Spec.flip i c digest) ->
        validateWebhookSignature cfg (Utf8.toString B) req
        = Some (BadRequestException "Invalid HMAC signature")).
Proof.
  intros HS B digest.
  assert (Hv : validateWebhookSignature cfg (Utf8.toString B) req =
               if bool_decide (x_shopify_hmac_sha256 req = Some digest) then None
               else Some (BadRequestException "Invalid HMAC signature")).
  { unfold validateWebhookSignature, computeHmacSignature. rewrite HS. reflexivity. }
  assert (Hno : x_shopify_hmac_sha256 req <> Some digest ->
                validateWebhookSignature cfg (Utf8.toString B) req
                = Some (BadRequestException "Invalid HMAC signature")).
  { intros Hne. rewrite Hv, bool_decide_eq_false_2 by exact Hne. reflexivity. }
  repeat split.
  - rewrite Hv. case_bool_decide; [auto | discriminate].
  - intros Heq. rewrite Hv, bool_decide_eq_true_2 by exact Heq. reflexivity.
  - exact Hno.
  - intros Hrt Hsig. rewrite Hv, bool_decide_eq_true_2; [reflexivity |].
    rewrite Hsig. unfold digest. rewrite Hrt. reflexivity.
  - intros Hascii Hsig. rewrite Hv, bool_decide_eq_true_2; [reflexivity |].
    rewrite Hsig. unfold digest. rewrite (ascii_roundtrip B Hascii). reflexivity.
  - intros i c d Hget Hne Hsig. apply Hno. rewrite Hsig.
    intros H. inversion H as [H']. exact (flip_changes i c d digest Hget Hne H').
Qed.

End Signature.

(** ** The queue processor's retries *)

Section QueueFacts.
Import Queue.

Variable strategy : Z -> nat -> Z.
Variable opts : JobOptions.
Variable jobId : string.
Variable body : nat -> option error.

Hypothesis always_fails : forall k, body k <> None.

Lemma processStringJob_fails k alerts :
  exists e, processStringJob jobId (body k) alerts =
            (if is_permanent (body k)
             then triggerAlert jobId (error_message e) alerts
             else alerts, inl e)
            /\ body k = Some e.
Proof.
  destruct (body k) as [e |] eqn:Hb; [| destruct (always_fails k Hb)].
  exists e. destruct e; cbn; auto.
Qed.

Lemma permanent_runs_S from n :
  permanent_runs body from (S n) =
  ((if is_permanent (body from) then 1 else 0) + permanent_runs body (S from) n)%nat.
Proof.
  unfold permanent_runs. change (seq from (S n)) with (from :: seq (S from) n).
  cbn [List.filter]. destruct (is_permanent (body from)); reflexivity.
Qed.

Lemma work_fails more made t :
  let t' := work strategy opts jobId body more made t in
  invocations t' = (invocations t + S more)%nat
  /\ waits t' = waits t ++ map (strategy (backoff_delay opts)) (seq (S made) more)
  /\ length (alerts_raised t') =
     (length (alerts_raised t) + permanent_runs body made (S more))%nat
  /\ final t' = failed.
Proof.
  revert made t. induction more as [| more IH]; intros made t;
    destruct (processStringJob_fails made (alerts_raised t)) as (e & Hp & Hb);
    cbn [work]; rewrite Hp; rewrite permanent_runs_S.
  - cbn [invocations waits alerts_raised final seq map]. rewrite app_nil_r.
    change (permanent_runs body (S made) 0) with 0%nat.
    destruct (is_permanent (body made)); unfold triggerAlert;
      rewrite ?length_app; cbn [length]; repeat split; first [reflexivity | lia].
  - destruct (IH (S made)
                (Build_trace (S (invocations t))
                   (waits t ++ [strategy (backoff_delay opts) (S made)])
                   (if is_permanent (body made)
                    then triggerAlert jobId (error_message e) (alerts_raised t)
                    else alerts_raised t) failed)) as (Hi & Hw & Ha & Hf).
    cbn [invocations waits alerts_raised final] in *.
    rewrite Hi, Hw, Ha, Hf. repeat split; try lia.
    + change (seq (S made) (S more)) with (S made :: seq (S (S made)) more).
      cbn [map]. rewrite <- app_assoc. reflexivity.
    + destruct (is_permanent (body made)); unfold triggerAlert;
        rewrite ?length_app; cbn [length]; lia.
Qed.

(** C5: a job whose processor throws on every run is run exactly
    [attempts] times (once when [attempts] is below 1), waiting after the
    n-th failure the delay the queue's backoff strategy gives for n failed
    runs, and ends in the failed set.  Alerts are tied to the class of the
    error, not to exhaustion: one alert for each run that failed with a
    [PermanentErrorException], none for any other run. *)
Theorem failing_job_is_run_attempts_times :
  let t := process_job strategy opts jobId body in
  invocations t = S (attempts opts - 1)
  /\ waits t = map (strategy (backoff_delay opts)) (seq 1 (attempts opts - 1))
  /\ final t = failed
  /\ length (alerts_raised t) = permanent_runs body 0 (S (attempts opts - 1)).
Proof.
  destruct (work_fails (attempts opts - 1) 0 (Build_trace 0 [] [] failed))
    as (Hi & Hw & Ha & Hf).
  unfold process_job. cbn [invocations waits alerts_raised final] in *.
  repeat split; assumption.
Qed.

End QueueFacts.

(** ** Webhook registration *)

Section ServiceFacts.
Import Service.

Variable register : list (string * string) -> string -> string -> response.

(** [retry] with the registration options, written out: three attempts
    at most, a wait of 1000 ms before the second and of 2000 ms before the
    third, the callback after every failure. *)
Lemma retry_registration f h w :
  retry registration_options f h w =
  match f w with
  | (w1, inr tt) => (w1, inr tt)
  | (w1, inl e1) =>
      match f (add_sleep 1000 (h e1 0%nat w1)) with
      | (w2, inr tt) => (w2, inr tt)
      | (w2, inl e2) =>
          match f (add_sleep 2000 (h e2 1%nat w2)) with
          | (w3, inr tt) => (w3, inr tt)
          | (w3, inl e3) => (h e3 2%nat w3, inl e3)
          end
      end
  end.
Proof.
  unfold retry, registration_options. cbn [maxAttempts Nat.sub makeAttempt].
  destruct (f w) as [w1 [e1 | []]]; [| reflexivity].
  change (sleep _ (h e1 0%nat w1)) with (add_sleep 1000 (h e1 0%nat w1)).
  destruct (f (add_sleep 1000 (h e1 0%nat w1))) as [w2 [e2 | []]]; [| reflexivity].
  change (sleep _ (h e2 1%nat w2)) with (add_sleep 2000 (h e2 1%nat w2)).
  destruct (f (add_sleep 2000 (h e2 1%nat w2))) as [w3 [e3 | []]]; reflexivity.
Qed.

Ltac attempt_cases :=
  unfold attempt at 1;
  match goal with
  | |- context [register ?h ?s ?t] => destruct (register h s t) eqn:?
  end;
  cbn [calls subscriptions sleeps metrics add_call add_subscription add_sleep
       add_metric on_retry].

(** What a single registration leaves behind, whether it ends well or
    not: at most three calls, all for its own topic, and no subscription
    lost. *)
Lemma registerWebhook_effects shop topic w :
  let '(w', r) := registerWebhook register shop topic w in
  (exists n, (1 <= n <= 3)%nat /\ calls w' = calls w ++ replicate n (shop, topic))
  /\ (r = inr tt ->
      subscriptions w' = subscriptions w ++ [(shop, topic)])
  /\ (r <> inr tt -> subscriptions w' = subscriptions w).
Proof.
  unfold registerWebhook. rewrite retry_registration.
  attempt_cases.
  1: { repeat split; try congruence. exists 1%nat. split; [lia | reflexivity]. }
  all: attempt_cases.
  1, 4: repeat split; try congruence; exists 2%nat;
        (split; [lia | rewrite <- ?app_assoc; reflexivity]).
  all: attempt_cases.
  all: repeat split; try congruence; exists 3%nat;
        (split; [lia | rewrite <- ?app_assoc; reflexivity]).
Qed.

(** A registration that fails has made three calls, with waits of one and
    two seconds between them, and raises [WebhookRegistrationError] for its
    topic and shop. *)
Lemma registerWebhook_failed shop topic w w' e :
  registerWebhook register shop topic w = (w', inl e) ->
  (exists message, e = WebhookRegistrationError topic shop message)
  /\ calls w' = calls w ++ [(shop, topic); (shop, topic); (shop, topic)]
  /\ sleeps w' = sleeps w ++ [1000; 2000]
  /\ subscriptions w' = subscriptions w.
Proof.
  unfold registerWebhook. rewrite retry_registration.
  do 3 (attempt_cases; try discriminate).
  all: intros H; inversion H; subst; cbn; rewrite <- ?app_assoc;
    repeat split; eauto.
Qed.

(** A topic that the platform never registers fails. *)
Lemma registerWebhook_exhausted shop topic w :
  (forall history, register history shop topic <> Success) ->
  exists w' e, registerWebhook register shop topic w = (w', inl e).
Proof.
  intros Hfail.
  unfold registerWebhook. rewrite retry_registration.
  do 3 (attempt_cases;
        match goal with
        | H : register _ _ _ = Success |- _ => destruct (Hfail _ H)
        | _ => idtac
        end).
  all: do 2 eexists; reflexivity.
Qed.

(** Topics that registered are subscribed, and it took at most three
    calls each. *)
Lemma registerWebhooks_done shop topics w w1 :
  registerWebhooks register shop topics w = (w1, inr tt) ->
  subscriptions w1 = subscriptions w ++ map (pair shop) topics
  /\ (length (calls w1) <= length (calls w) + 3 * length topics)%nat
  /\ (length (calls w) + length topics <= length (calls w1))%nat.
Proof.
  revert w. induction topics as [| t ts IH]; intros w; cbn [registerWebhooks].
  - intros H. inversion H; subst. rewrite app_nil_r. cbn. repeat split; lia.
  - pose proof (registerWebhook_effects shop t w) as He.
    destruct (registerWebhook register shop t w) as [w' [e | []]]; [discriminate |].
    destruct He as ((n & Hn & Hc) & Hs & _).
    intros H. destruct (IH w' H) as (Hs1 & Hle & Hge).
    rewrite Hs1, (Hs eq_refl), <- app_assoc.
    rewrite Hc, length_app, length_replicate in Hle, Hge.
    cbn [map app length]. repeat split; lia.
Qed.

Lemma registerWebhooks_app shop pre rest w w1 :
  registerWebhooks register shop pre w = (w1, inr tt) ->
  registerWebhooks register shop (pre ++ rest) w = registerWebhooks register shop rest w1.
Proof.
  revert w. induction pre as [| t ts IH]; intros w; cbn [registerWebhooks app].
  - intros H. inversion H. reflexivity.
  - destruct (registerWebhook register shop t w) as [w' [e | []]]; [discriminate |].
    apply IH.
Qed.

(** C6: [registerWebhooks] goes through the topics in order; each topic
    gets at most three register calls, with waits of 1000 ms and 2000 ms
    between them.  When a topic's registration fails, it has had its three
    calls, the call raises [WebhookRegistrationError] naming that topic and
    the shop, no call is made for any topic after it, and the topics before
    it stay subscribed.  A topic the platform never registers does fail. *)
Theorem registration_stops_at_the_exhausted_topic shop pre topic post w w1 w2 e :
  registerWebhooks register shop pre w = (w1, inr tt) ->
  registerWebhook register shop topic w1 = (w2, inl e) ->
  registerWebhooks register shop (pre ++ topic :: post) w = (w2, inl e)
  /\ (exists message, e = WebhookRegistrationError topic shop message)
  /\ calls w2 = calls w1 ++ [(shop, topic); (shop, topic); (shop, topic)]
  /\ sleeps w2 = sleeps w1 ++ [1000; 2000]
  /\ subscriptions w2 = subscriptions w ++ map (pair shop) pre
  /\ (length (calls w1) <= length (calls w) + 3 * length pre)%nat
  /\ ((forall history, register history shop topic <> Success) ->
      forall w0, exists w' e', registerWebhook register shop topic w0 = (w', inl e')).
Proof.
  intros Hpre Hfail.
  destruct (registerWebhook_failed shop topic w1 w2 e Hfail) as (Hm & Hc & Hsl & Hsub).
  destruct (registerWebhooks_done shop pre w w1 Hpre) as (Hs1 & Hle & _).
  rewrite (registerWebhooks_app shop pre (topic :: post) w w1 Hpre).
  cbn [registerWebhooks]. rewrite Hfail.
  repeat split; [exact Hm | exact Hc | exact Hsl | congruence | exact Hle |].
  intros Hnever w0. exact (registerWebhook_exhausted shop topic w0 Hnever).
Qed.

End ServiceFacts.

(** ** The theorems at concrete deliveries *)

Section Examples.
Import Bytes Controller Fixtures.

(** C1, at an explicit input: two deliveries of 'abc-1' in flight
    together are both answered 200 and leave two jobs for the one id. *)
Lemma two_deliveries_two_jobs :
  let sys := run id cfg no_faults 1000 (lockstep 2)
                 (fresh, [(plain, Start); (plain, Start)]) in
  map snd sys.2 = [Finished (Returned accepted); Finished (Returned accepted)]
  /\ length (jobs_for "abc-1" sys.1) = 2%nat.
Proof. vm_compute. split; reflexivity. Qed.

Lemma concurrent_deliveries_witness :
  exists st',
    run id cfg no_faults 1000 (lockstep 3) (fresh, replicate 3 (plain, Start))
    = (st', replicate 3 (plain, Finished (Returned accepted)))
    /\ webhookQueue st' = webhookQueue fresh ++ replicate 3 the_job
    /\ length (jobs_for "abc-1" st') = (length (jobs_for "abc-1" fresh) + 3)%nat.
Proof.
  refine (proj1 (concurrent_deliveries_all_enqueue id cfg 3 1000 plain fresh
                   "orders/create" "shop.example.com" "abc-1"
                   {| h_topic := "orders/create";
                      h_callback := handleOrderCreateWebhook |}
                   [] _ _ _)).
  - reflexivity.
  - vm_compute. reflexivity.
  - vm_compute. reflexivity.
Defined.

(** C2, at an explicit input: the one-byte body FF does not verify
    against [hmac] of itself, because the digest is taken over the decoded
    text; and the signature under which it does verify also verifies the
    body FE, one byte changed. *)
Lemma undecodable_body_breaks_the_check :
  signature_accepted cfg (with_body [0xFF] (Spec.hmac [0xFF] (js "secret"))) = false
  /\ signature_accepted cfg
       (with_body [0xFF] (Spec.hmac (Utf8.encode (Utf8.toString [0xFF])) (js "secret")))
     = true
  /\ signature_accepted cfg
       (with_body [0xFE] (Spec.hmac (Utf8.encode (Utf8.toString [0xFF])) (js "secret")))
     = true.
Proof. vm_compute. repeat split; reflexivity. Qed.

Lemma signature_check_witness :
  validateWebhookSignature cfg (Utf8.toString (rawBody plain)) plain = None
  /\ validateWebhookSignature cfg (Utf8.toString (rawBody plain))
       (with_body body (Spec.flip 0 "B" signature))
     = Some (BadRequestException "Invalid HMAC signature").
Proof.
  pose proof (signature_check_accepts_only_the_digest cfg (js "secret") plain eq_refl)
    as (_ & _ & Hok & _ & _).
  pose proof (signature_check_accepts_only_the_digest cfg (js "secret")
                (with_body body (Spec.flip 0 "B" signature)) eq_refl)
    as (_ & _ & _ & _ & Hflip).
  split.
  - apply Hok; vm_compute; reflexivity.
  - apply (Hflip 0%nat "B"%char "A"%char); [| discriminate |]; vm_compute; reflexivity.
Defined.

(** C3, at an explicit input: 'abc-1' is accepted at instant 1000 and
    delivered again one second later; the answer is a 500 and the queue
    still holds one job. *)
Lemma redelivery_witness :
  handleWebhook id cfg no_faults 1000 plain fresh = (after_first, inr accepted)
  /\ (handleWebhook id cfg no_faults 2000 plain after_first).2
     = inl (InternalServerErrorException
              "An error occurred while processing the webhook")
  /\ length (webhookQueue (handleWebhook id cfg no_faults 2000 plain after_first).1)
     = 1%nat.
Proof.
  pose proof (redelivery_within_ttl_is_an_error id cfg no_faults no_faults
                1000 2000 plain fresh) as H.
  unfold post in H.
  assert (H1 : handleWebhook id cfg no_faults 1000 plain fresh = (after_first, inr accepted))
    by (vm_compute; reflexivity).
  rewrite H1 in H. cbn [fst snd] in H.
  destruct (H eq_refl ltac:(lia)) as (_ & Hq & H500).
  split; [exact H1 |]. split.
  - exact (proj1 (H500 eq_refl eq_refl)).
  - rewrite Hq. vm_compute. reflexivity.
Defined.

(** C4, at an explicit input: after an accepted delivery the job sits in
    the queue with its handler, and the breaker has not been fired. *)
Lemma accepted_delivery_bypasses_breaker :
  webhookQueue after_first = [the_job]
  /\ cb_fired (breaker after_first) = 0%nat
  /\ breaker after_first
     = {| cb_timeout := 5000; cb_errorThresholdPercentage := 50;
          cb_resetTimeout := 30000; cb_fired := 0 |}.
Proof. vm_compute. repeat split; reflexivity. Qed.

(** C5, at explicit inputs: with the default options, a job that always
    fails with a [PermanentErrorException] raises three alerts, and one
    that always fails with a [TemporaryErrorException] raises none. *)
Lemma alerts_are_not_one_per_job :
  length (Queue.alerts_raised
            (Queue.process_job (Queue.builtin_backoff Queue.exponential)
               queue_defaults "7" always_permanent)) = 3%nat
  /\ length (Queue.alerts_raised
               (Queue.process_job (Queue.builtin_backoff Queue.exponential)
                  queue_defaults "7" always_temporary)) = 0%nat.
Proof. vm_compute. split; reflexivity. Qed.

Lemma failing_job_witness :
  let t := Queue.process_job (Queue.builtin_backoff Queue.exponential)
             queue_defaults "7" always_permanent in
  Queue.invocations t = 3%nat
  /\ Queue.waits t = [1000; 3000]
  /\ Queue.final t = Queue.failed
  /\ length (Queue.alerts_raised t) = 3%nat.
Proof.
  exact (failing_job_is_run_attempts_times
           (Queue.builtin_backoff Queue.exponential) queue_defaults "7"
           always_permanent (fun k H => eq_ind (Some (Queue.PermanentErrorException "boom"))
               (fun o => match o with Some _ => True | None => False end) I None H)).
Defined.

(** C6, at the input of the specification: 'orders/create' registers,
    'products/update' never does, and a third topic is never tried. *)
Lemma registration_witness :
  exists w2 message,
    Service.registerWebhooks platform "shop.example.com"
      ["orders/create"%string; "products/update"%string; "app/uninstalled"%string]
      Service.empty_world
    = (w2, inl (Service.WebhookRegistrationError "products/update" "shop.example.com" message))
    /\ Service.calls w2 =
         [("shop.example.com"%string, "orders/create"%string);
          ("shop.example.com"%string, "products/update"%string);
          ("shop.example.com"%string, "products/update"%string);
          ("shop.example.com"%string, "products/update"%string)]
    /\ Service.sleeps w2 = [1000; 2000]
    /\ Service.subscriptions w2 = [("shop.example.com"%string, "orders/create"%string)].
Proof.
  destruct (Service.registerWebhook platform "shop.example.com" "products/update"
              (Service.registerWebhooks platform "shop.example.com"
                 ["orders/create"%string] Service.empty_world).1)
    as [w2 r] eqn:Hr.
  exists w2, "{}"%string.
  assert (Hr' : r = inl (Service.WebhookRegistrationError "products/update"
                          "shop.example.com" "{}")).
  { vm_compute in Hr. inversion Hr. reflexivity. }
  subst r.
  destruct (registration_stops_at_the_exhausted_topic platform "shop.example.com"
              ["orders/create"%string] "products/update" ["app/uninstalled"%string]
              Service.empty_world _ w2 _ eq_refl Hr)
    as (Hrun & _ & Hc & Hsl & Hsub & _).
  repeat split; assumption.
Defined.

(** C7, at an explicit input: nonce 'n-1' is accepted at instant 1000 and
    sent again eleven minutes later with a fresh timestamp, long after the
    five-minute window; it is refused. *)
Lemma expired_nonce_is_still_refused :
  let first := delivery (Some "n-1"%string) (JInt 1000) in
  let again := delivery (Some "n-1"%string) (JInt 661000) in
  let st1 := (handleWebhook id cfg no_faults 1000 first fresh).1 in
  (handleWebhook id cfg no_faults 1000 first fresh).2 = inr accepted
  /\ (validateTimestampAndNonce 661000 again st1).2
     = inl (BadRequestException "Nonce has already been used")
  /\ (handleWebhook id cfg no_faults 661000 again st1).2
     = inl (BadRequestException "Nonce has already been used").
Proof. vm_compute. repeat split; reflexivity. Qed.

Lemma nonce_witness :
  let first := delivery (Some "n-1"%string) (JInt 1000) in
  let again := delivery (Some "n-1"%string) (JInt 661000) in
  let st1 := set_usedNonces ({["n-1"%string]} ∪ usedNonces fresh) fresh in
  let st2 := serve id cfg [(no_faults, 2000, plain)] st1 in
  validateTimestampAndNonce 661000 again st2 =
    (st2, inl (BadRequestException "Nonce has already been used")).
Proof.
  intros first again st1 st2.
  refine (proj1 (nonce_is_never_accepted_again id cfg 1000 first fresh st1 "n-1"
                   eq_refl _ _ [(no_faults, 2000, plain)] 661000 again no_faults eq_refl)).
  - discriminate.
  - vm_compute. reflexivity.
Defined.

(** C8, at an explicit input: a timestamp ten minutes ahead of the clock
    passes the check and the delivery is accepted. *)
Lemma future_timestamp_is_accepted :
  let ahead := delivery (Some "n-2"%string) (JInt (1000 + 10 * 60 * 1000)) in
  (validateTimestampAndNonce 1000 ahead fresh).2 = inr tt
  /\ (handleWebhook id cfg no_faults 1000 ahead fresh).2 = inr accepted.
Proof. vm_compute. split; reflexivity. Qed.

Lemma old_timestamp_witness :
  let stale := delivery (Some "n-3"%string) (JInt 1000) in
  validateTimestampAndNonce 400000 stale fresh
  = (fresh, inl (BadRequestException "Timestamp too old"))
  /\ (handleWebhook id cfg no_faults 400000 stale fresh).2
     = inl (BadRequestException "Timestamp too old").
Proof.
  intros stale.
  destruct (proj1 (old_timestamp_is_refused id cfg 400000 stale fresh "n-3" 1000
                     eq_refl ltac:(discriminate) eq_refl) ltac:(lia))
    as (Hv & _ & H400).
  split; [exact Hv |].
  exact (proj1 (H400 no_faults "orders/create"%string "shop.example.com"%string
                  "abc-1"%string eq_refl eq_refl eq_refl
                  ltac:(vm_compute; reflexivity) eq_refl)).
Defined.

(** C9, at an explicit input: the delivery without a token is answered
    500. *)
Lemma bad_token_witness :
  (handleWebhook id cfg no_faults 1000 without_token fresh).2
  = inl (InternalServerErrorException
           "An error occurred while processing the webhook")
  /\ status (outcome_of (handleWebhook id cfg no_faults 1000 without_token fresh).2) = 500.
Proof.
  pose proof (bad_token_is_answered_500 id cfg no_faults 1000 without_token fresh
                "orders/create" "shop.example.com" "abc-1"
                eq_refl eq_refl (or_introl eq_refl) eq_refl) as (H & Hs & _).
  split; [exact H | exact Hs].
Defined.

(** C10, at an explicit input: a delivery whose enqueue throws leaves the
    store as it was. *)
Lemma dedup_mark_witness :
  let fl := Build_faults false true false false in
  (handleWebhook id cfg fl 1000 plain fresh).2 <> inr accepted
  /\ redis (handleWebhook id cfg fl 1000 plain fresh).1 = redis fresh
  /\ webhookQueue (handleWebhook id cfg fl 1000 plain fresh).1 = webhookQueue fresh.
Proof.
  intros fl.
  refine (proj2 (dedup_mark_follows_enqueue id cfg fl 1000 plain fresh) _).
  unfold stopped_before_enqueue. do 7 right. reflexivity.
Defined.

End Examples.

(** ** More of the request path *)

Section ControllerMore.
Import Bytes Controller Delivery.

Variable sanitize : jsstring -> jsstring.
Variable cfg : config.







(** X1: a delivery that lacks the topic, the shop-domain or the
    webhook-id header (absent or empty) is refused with a 400 whose message
    lists exactly the missing ones, as Topic, Domain, WebhookId in that
    order; the refusal is thrown before the [try] block, so the controller's
    state, Slack and CloudWatch included, is left as it was. *)
Theorem missing_headers_are_a_bare_400 fl now req st :
  missing (x_shopify_topic req) = true
  \/ missing (x_shopify_shop_domain req) = true
  \/ missing (x_shopify_webhook_id req) = true ->
  exists names,
    handleWebhook sanitize cfg fl now req st =
      (st, inl (BadRequestException
                  (String.append "Missing required HTTP headers: " (join ", " names))))
    /\ names <> []
    /\ names `sublist_of` ["Topic"%string; "Domain"%string; "WebhookId"%string]
    /\ ("Topic"%string ∈ names <-> missing (x_shopify_topic req) = true)
    /\ ("Domain"%string ∈ names <-> missing (x_shopify_shop_domain req) = true)
    /\ ("WebhookId"%string ∈ names <-> missing (x_shopify_webhook_id req) = true).
Proof.
  intros Hm. exists (missingHeaders req).
  unfold handleWebhook, extractHeaders, missingHeaders.
  destruct (missing (x_shopify_topic req)), (missing (x_shopify_shop_domain req)),
    (missing (x_shopify_webhook_id req)); cbn [app];
    try (exfalso; destruct Hm as [Hm | [Hm | Hm]]; discriminate Hm);
    (split; [reflexivity |]); (split; [discriminate |]);
    (split; [repeat first [apply sublist_nil | apply sublist_skip | apply sublist_cons] |]);
    rewrite ?elem_of_cons, ?elem_of_nil; clear Hm;
    repeat split; intros Hx; try reflexivity; intuition discriminate.
Qed.



(** What the checks leave alone: everything but the nonce set. *)
Lemma checks_frame fl now req wid st :
  post (checks cfg fl now req wid) st (fun st1 _ =>
    redis st1 = redis st /\ webhookQueue st1 = webhookQueue st
    /\ webhookHandlers st1 = webhookHandlers st /\ breaker st1 = breaker st
    /\ slack st1 = slack st /\ cloudWatch st1 = cloudWatch st
    /\ usedNonces st ⊆ usedNonces st1).
Proof. wp; cbn; repeat split; set_solver. Qed.

(** X3: a delivery with all three headers from an address that is
    not on the allow-list is answered 500 (the [ForbiddenException] of
    [validateIp] is replaced by [handleError]); Slack receives
    'Webhook processing failed: Unauthorized IP address', and store, queue
    and nonce set are unchanged. *)
Theorem disallowed_address_is_answered_500 fl now req st topic domain webhookId :
  extractHeaders req = inr (topic, domain, webhookId) ->
  ip req ∉ SHOPIFY_IPS cfg ->
  slack_send_fails fl = false ->
  post (handleWebhook sanitize cfg fl now req) st (fun st' r =>
    r = inl (InternalServerErrorException
               "An error occurred while processing the webhook")
    /\ status (outcome_of r) = 500
    /\ slack st' = slack st ++ ["Webhook processing failed: Unauthorized IP address"%string]
    /\ redis st' = redis st /\ webhookQueue st' = webhookQueue st
    /\ usedNonces st' = usedNonces st).
Proof.
  intros Hh Hip Hsl. unfold handleWebhook. rewrite Hh.
  destruct (extractHeaders_inr _ _ _ _ Hh) as (_ & _ & _ & Hv).
  unfold checks. rewrite Hv. unfold validateIp.
  destruct (decide (ip req ∈ SHOPIFY_IPS cfg)); [contradiction |].
  wp; simplify_eq/=; try congruence. repeat split; reflexivity.
Qed.


Lemma filter_first topic (pre : list handler) h rest :
  Forall (fun h' => h_topic h' <> topic) pre ->
  h_topic h = topic ->
  filter (fun h' => h_topic h' = topic) (pre ++ h :: rest)
  = h :: filter (fun h' => h_topic h' = topic) rest.
Proof.
  intros Hpre Hh. induction Hpre as [| x pre Hx _ IH]; cbn [app].
  - rewrite filter_cons_True by exact Hh. reflexivity.
  - rewrite filter_cons_False by exact Hx. exact IH.
Qed.

(** X5: when several handlers are registered for a topic, the job
    of an accepted delivery carries the one registered first ([find] on the
    handler list). *)
Theorem first_registered_handler_is_used fl now req st pre h rest :
  webhookHandlers st = pre ++ h :: rest ->
  x_shopify_topic req = Some (h_topic h) ->
  Forall (fun h' => h_topic h' <> h_topic h) pre ->
  post (handleWebhook sanitize cfg fl now req) st (fun st' r =>
    r = inr accepted ->
    webhookQueue st' = webhookQueue st ++ [job_of sanitize req h]).
Proof.
  intros Hhs Ht Hpre.
  wp; intros Hr; try discriminate Hr; cbn [webhookHandlers webhookQueue
    set_usedNonces set_webhookQueue set_redis set_cloudWatch] in *.
  all: match goal with
       | H : extractHeaders _ = inr _ |- _ =>
           apply extractHeaders_inr in H; destruct H as (Ht' & Hd & Hw & _)
       end.
  all: rewrite Ht in Ht'; inversion Ht'; subst.
  all: match goal with
       | H : filter _ (webhookHandlers _) = _ |- _ =>
           rewrite Hhs, (filter_first _ _ _ _ Hpre eq_refl) in H;
           inversion H; subst
       end.
  all: unfold job_of; rewrite Ht, Hd, Hw; reflexivity.
Qed.

Lemma default_handlers_topics topic :
  topic <> "orders/create"%string -> topic <> "products/update"%string ->
  filter (fun h => h_topic h = topic) (registerWebhookHandlers []) = [].
Proof.
  intros H1 H2. unfold registerWebhookHandlers, registerWebhookHandler. cbn [app].
  rewrite filter_cons_False by (cbn; congruence).
  rewrite filter_cons_False by (cbn; congruence). reflexivity.
Qed.

(** X6: with the two handlers the constructor registers, a
    delivery for any other topic that passes the checks and finds no cache
    entry is answered 200 with no body ([return;]), and nothing is enqueued,
    marked or sent to Slack. *)
Theorem unknown_topic_is_acknowledged_and_dropped fl now req st st1 topic domain webhookId :
  extractHeaders req = inr (topic, domain, webhookId) ->
  webhookHandlers st = registerWebhookHandlers [] ->
  topic <> "orders/create"%string -> topic <> "products/update"%string ->
  checks cfg fl now req webhookId st = (st1, inr None) ->
  handleWebhook sanitize cfg fl now req st = (st1, inr NoBody)
  /\ status (Returned NoBody) = 200
  /\ webhookQueue st1 = webhookQueue st /\ redis st1 = redis st
  /\ slack st1 = slack st.
Proof.
  intros Hh Hhs H1 H2 Hc.
  pose proof (checks_frame fl now req webhookId st) as Hf.
  unfold post in Hf. rewrite Hc in Hf. cbn [fst snd] in Hf.
  destruct Hf as (Hr & Hq & Hhs1 & _ & Hsl & _).
  repeat split; try assumption; try reflexivity.
  unfold handleWebhook. rewrite Hh. unfold try_catch, bind at 1. rewrite Hc.
  unfold dispatch. cbn [getCachedData_resume]. unfold bind, ret, gets. cbn.
  rewrite Hhs1, Hhs, (default_handlers_topics topic H1 H2). reflexivity.
Qed.


(** A delivery that passes every check, carries no nonce, finds no entry
    and has a handler is accepted: job appended, mark set, success logged. *)
Lemma accepted_run fl now req st topic domain webhookId h hs :
  extractHeaders req = inr (topic, domain, webhookId) ->
  validateIp cfg req = None ->
  validateAuth cfg req = None ->
  validateWebhookSignature cfg (Utf8.toString (rawBody req)) req = None ->
  missing (x_shopify_nonce req) = true ->
  redis_get_fails fl = false -> queue_add_fails fl = false -> redis_set_fails fl = false ->
  redis_get now (redis st) webhookId = None ->
  filter (fun h => h_topic h = topic) (webhookHandlers st) = h :: hs ->
  handleWebhook sanitize cfg fl now req st =
    (log_success (set_mark now webhookId (enqueue (job_of sanitize req h) st)),
     inr accepted).
Proof.
  intros Hh Hip Hau Hsig Hn Hg Hq Hs Hget Hf.
  destruct (extractHeaders_inr _ _ _ _ Hh) as (Ht & Hd & Hw & Hv).
  assert (Hnonce : validateTimestampAndNonce now req = ret tt).
  { unfold validateTimestampAndNonce, missing in *.
    destruct (x_shopify_nonce req); [rewrite Hn |]; reflexivity. }
  unfold handleWebhook. rewrite Hh. unfold checks, dispatch, mark, acknowledge.
  rewrite Hv, Hip, Hau, Hsig, Hnonce. unfold redis_GET. rewrite Hg, Hq, Hs.
  unfold try_catch, bind, check, ret, gets, modify, logToCloudWatch.
  cbn [fst snd]. rewrite Hget. cbn [getCachedData_resume]. unfold ret.
  cbn [Json.truthy]. rewrite Hf.
  unfold job_of. rewrite Ht, Hd, Hw. reflexivity.
Qed.

Lemma redis_get_expired now later db key value :
  now + 3600 * 1000 <= later ->
  redis_get later (redis_set_ex now db key value 3600) key = None.
Proof.
  intros H. unfold redis_get, redis_set_ex. rewrite lookup_insert_eq.
  destruct (Z.ltb_spec later (now + 3600 * 1000)); [lia | reflexivity].
Qed.

(** What an accepted delivery went through and left behind. *)
Lemma handleWebhook_accepted_full fl now req st :
  post (handleWebhook sanitize cfg fl now req) st (fun st' r =>
    r = inr accepted ->
    exists topic domain webhookId h hs,
      extractHeaders req = inr (topic, domain, webhookId)
      /\ validateIp cfg req = None
      /\ validateAuth cfg req = None
      /\ validateWebhookSignature cfg (Utf8.toString (rawBody req)) req = None
      /\ filter (fun h => h_topic h = topic) (webhookHandlers st) = h :: hs
      /\ webhookHandlers st' = webhookHandlers st
      /\ redis st' = redis_set_ex now (redis st) webhookId "processed" 3600
      /\ webhookQueue st' = webhookQueue st ++ [job_of sanitize req h]).
Proof.
  wp; intros Hr; try discriminate Hr;
    cbn [webhookHandlers webhookQueue redis set_usedNonces set_webhookQueue
         set_redis set_cloudWatch] in *;
    match goal with
    | H : extractHeaders _ = inr _ |- _ =>
        destruct (extractHeaders_inr _ _ _ _ H) as (Ht & Hd & Hw & _)
    end;
    do 5 eexists; repeat split; try eassumption; try reflexivity;
    unfold job_of; rewrite Ht, Hd, Hw; reflexivity.
Qed.

(** X7: a delivery without nonce that was accepted at [t0] and
    arrives again an hour or more later is accepted again: the mark has
    expired, and the same job is in the queue twice. *)
Theorem redelivery_after_ttl_is_processed_again fl0 fl1 t0 t1 req st :
  missing (x_shopify_nonce req) = true ->
  redis_get_fails fl1 = false -> queue_add_fails fl1 = false ->
  redis_set_fails fl1 = false ->
  t0 + 3600 * 1000 <= t1 ->
  post (handleWebhook sanitize cfg fl0 t0 req) st (fun st1 r1 =>
    r1 = inr accepted ->
    post (handleWebhook sanitize cfg fl1 t1 req) st1 (fun st2 r2 =>
      r2 = inr accepted
      /\ exists j, webhookQueue st1 = webhookQueue st ++ [j]
                   /\ webhookQueue st2 = webhookQueue st ++ [j; j])).
Proof.
  intros Hn Hg Hq Hs Ht.
  pose proof (handleWebhook_accepted_full fl0 t0 req st) as Hacc.
  unfold post in Hacc |- *.
  destruct (handleWebhook sanitize cfg fl0 t0 req st) as [st1 r1]; cbn [fst snd] in *.
  intros Hr.
  destruct (Hacc Hr) as (topic & domain & wid & h & hs & Hh & Hip & Hau & Hsig
                          & Hf & Hhs & Hdb & Hqueue).
  rewrite (accepted_run fl1 t1 req st1 topic domain wid h hs Hh Hip Hau Hsig Hn Hg Hq Hs).
  - cbn [fst snd]. split; [reflexivity |]. eexists. split; [exact Hqueue |].
    cbn. rewrite Hqueue, <- app_assoc. reflexivity.
  - rewrite Hdb. apply redis_get_expired. exact Ht.
  - rewrite Hhs. exact Hf.
Qed.

(** X8: a delivery that passes the IP, token and signature checks
    with a fresh nonce and a timestamp that is not too old has spent its
    nonce whatever happens afterwards (Redis error, no handler, failed
    enqueue): the nonce is recorded and every later use of it is refused. *)
Theorem nonce_is_spent_whatever_follows fl now req st topic domain webhookId nonce :
  extractHeaders req = inr (topic, domain, webhookId) ->
  validateIp cfg req = None ->
  validateAuth cfg req = None ->
  validateWebhookSignature cfg (Utf8.toString (rawBody req)) req = None ->
  x_shopify_nonce req = Some nonce -> nonce <> ""%string ->
  nonce ∉ usedNonces st ->
  too_old now (x_shopify_timestamp req) = false ->
  post (handleWebhook sanitize cfg fl now req) st (fun st' r =>
    nonce ∈ usedNonces st'
    /\ forall later,
         validateTimestampAndNonce later req st' =
           (st', inl (BadRequestException "Nonce has already been used"))).
Proof.
  intros Hh Hip Hau Hsig Hn Hne Hfresh Hold.
  assert (Hin : post (handleWebhook sanitize cfg fl now req) st (fun st' _ =>
                  nonce ∈ usedNonces st')).
  { destruct (extractHeaders_inr _ _ _ _ Hh) as (_ & _ & _ & Hv).
    unfold handleWebhook. rewrite Hh. apply post_try_catch. apply post_bind.
    unfold checks. rewrite Hv, Hip, Hau, Hsig.
    do 4 (apply post_bind; apply post_check).
    unfold validateTimestampAndNonce. rewrite Hn.
    destruct (String.eqb_spec nonce ""); [contradiction |].
    apply post_bind, post_bind, post_gets.
    destruct (decide (nonce ∈ usedNonces st)); [contradiction |].
    rewrite Hold.
    wp; cbn; set_solver. }
  eapply post_weaken; [| exact Hin].
  intros st' r Hst'. split; [exact Hst' |]. intros later.
  exact (validateTimestampAndNonce_used later req st' nonce Hn Hne Hst').
Qed.

(** X9: without a nonce header the timestamp header is never
    looked at: the delivery is handled the same whatever timestamp it
    carries. *)
Theorem timestamp_is_ignored_without_nonce fl now req st t :
  missing (x_shopify_nonce req) = true ->
  handleWebhook sanitize cfg fl now (with_timestamp t req) st
  = handleWebhook sanitize cfg fl now req st.
Proof.
  intros Hn.
  assert (Hv : forall r, x_shopify_nonce r = x_shopify_nonce req ->
                 validateTimestampAndNonce now r = ret tt).
  { intros r Hr. unfold validateTimestampAndNonce, missing in *. rewrite Hr.
    destruct (x_shopify_nonce req); [rewrite Hn |]; reflexivity. }
  unfold handleWebhook, checks.
  rewrite (Hv (with_timestamp t req) eq_refl), (Hv req eq_refl).
  reflexivity.
Qed.

(** X10: when the store holds, under the webhook id, a text that is
    JSON for a truthy value, a delivery that passes the checks is answered
    200 'Webhook already processed' and leaves queue, store and Slack as
    they were. *)
Theorem foreign_mark_is_honoured fl now req st st1 topic domain webhookId text v :
  extractHeaders req = inr (topic, domain, webhookId) ->
  checks cfg fl now req webhookId st = (st1, inr (Some text)) ->
  Json.parse text = Some v ->
  Json.truthy v = true ->
  handleWebhook sanitize cfg fl now req st
  = (st1, inr (Body true "Webhook already processed"))
  /\ webhookQueue st1 = webhookQueue st /\ redis st1 = redis st
  /\ slack st1 = slack st.
Proof.
  intros Hh Hc Hp Ht.
  pose proof (checks_frame fl now req webhookId st) as Hf.
  unfold post in Hf. rewrite Hc in Hf. cbn [fst snd] in Hf.
  destruct Hf as (Hr & Hq & _ & _ & Hsl & _).
  repeat split; try assumption.
  unfold handleWebhook. rewrite Hh. unfold try_catch, bind at 1. rewrite Hc.
  unfold dispatch, getCachedData_resume.
  destruct (String.eqb_spec text "") as [-> | _]; [discriminate Hp |].
  rewrite Hp. unfold bind, ret. rewrite Ht. reflexivity.
Qed.

Lemma redis_get_Some now db key text :
  redis_get now db key = Some text -> exists expires, db !! key = Some (text, expires).
Proof.
  unfold redis_get. destruct (db !! key) as [[v e] |]; [| discriminate].
  destruct (now <? e); [| discriminate]. intros Hx. inversion Hx. eauto.
Qed.

(** Under a store that holds nothing but marks, the early answer is never
    given. *)
Lemma handleWebhook_never_early fl now req st :
  (forall key value expires,
     redis st !! key = Some (value, expires) -> value = "processed"%string) ->
  post (handleWebhook sanitize cfg fl now req) st (fun _ r =>
    r <> inr (Body true "Webhook already processed")).
Proof.
  intros Hinv. wp; try discriminate; exfalso;
    match goal with
    | H : redis_get _ _ _ = Some _ |- _ =>
        apply redis_get_Some in H; destruct H as (expires & H);
        cbn [redis set_usedNonces] in H; apply Hinv in H; subst
    end;
    match goal with
    | H : Json.parse "processed" = Some _ |- _ => rewrite parse_processed in H; discriminate H
    end.
Qed.

(** A delivery writes nothing to the store but its mark. *)
Lemma handleWebhook_only_marks fl now req st :
  (forall key value expires,
     redis st !! key = Some (value, expires) -> value = "processed"%string) ->
  forall key value expires,
    redis (handleWebhook sanitize cfg fl now req st).1 !! key = Some (value, expires) ->
    value = "processed"%string.
Proof.
  intros Hinv key value expires H.
  pose proof (handleWebhook_store sanitize cfg fl now req st) as Hs.
  unfold post in Hs.
  destruct Hs as [[Hdb _] | (topic & domain & wid & h & _ & _ & Hdb & _)];
    rewrite Hdb in H; [eapply Hinv, H |].
  unfold redis_set_ex in H.
  destruct (decide (wid = key)) as [-> | Hne].
  - rewrite lookup_insert_eq in H. inversion H. reflexivity.
  - rewrite lookup_insert_ne in H by exact Hne. eapply Hinv, H.
Qed.

(** X11: in a store that holds nothing but the controller's own
    marks, no sequence of deliveries ever leads to the answer
    'Webhook already processed': the controller only writes the text
    'processed', which [JSON.parse] rejects. *)
Theorem already_processed_is_never_answered deliveries fl now req st :
  (forall key value expires,
     redis st !! key = Some (value, expires) -> value = "processed"%string) ->
  (handleWebhook sanitize cfg fl now req (serve sanitize cfg deliveries st)).2
  <> inr (Body true "Webhook already processed").
Proof.
  revert st. induction deliveries as [| d ds IH]; intros st Hinv.
  - exact (handleWebhook_never_early fl now req st Hinv).
  - rewrite serve_cons. apply IH. apply handleWebhook_only_marks, Hinv.
Qed.

Lemma handleWebhook_handlers fl now req st :
  post (handleWebhook sanitize cfg fl now req) st (fun st' _ =>
    webhookHandlers st' = webhookHandlers st).
Proof. wp; reflexivity. Qed.

(** X12: serving deliveries never removes or reorders queued jobs,
    adds at most one job per delivery, and leaves the handler list as it
    was. *)
Theorem serve_keeps_queue_and_handlers deliveries st :
  webhookQueue st `prefix_of` webhookQueue (serve sanitize cfg deliveries st)
  /\ (length (webhookQueue (serve sanitize cfg deliveries st))
      <= length (webhookQueue st) + length deliveries)%nat
  /\ webhookHandlers (serve sanitize cfg deliveries st) = webhookHandlers st.
Proof.
  revert st. induction deliveries as [| d ds IH]; intros st.
  - cbn. repeat split; [reflexivity | lia].
  - rewrite serve_cons.
    pose proof (handleWebhook_queue sanitize cfg d.1.1 d.1.2 d.2 st) as Hq.
    pose proof (handleWebhook_handlers d.1.1 d.1.2 d.2 st) as Hh.
    unfold post in Hq, Hh.
    destruct (IH (handleWebhook sanitize cfg d.1.1 d.1.2 d.2 st).1) as (Hp & Hl & Hhs).
    repeat split.
    + etrans; [| exact Hp].
      destruct Hq as [-> | (j & -> & _)]; [reflexivity | apply prefix_app_r; reflexivity].
    + cbn [length].
      destruct Hq as [Hq | (j & Hq & _)]; rewrite Hq in Hl;
        rewrite ?length_app in Hl; cbn [length] in Hl; lia.
    + rewrite Hhs. exact Hh.
Qed.

(** X13: every store entry after a run of deliveries was there
    before, or is the mark 'processed' written for the webhook id of one of
    the deliveries, expiring 3600 s after that delivery's instant. *)
Theorem serve_only_writes_marks deliveries st key value expires :
  redis (serve sanitize cfg deliveries st) !! key = Some (value, expires) ->
  redis st !! key = Some (value, expires)
  \/ (value = "processed"%string
      /\ exists d, d ∈ deliveries
           /\ x_shopify_webhook_id d.2 = Some key /\ expires = d.1.2 + 3600 * 1000).
Proof.
  revert st. induction deliveries as [| d ds IH]; intros st; [auto |].
  rewrite serve_cons. intros H. destruct (IH _ H) as [H1 | (Hv & d' & Hin & Hd')].
  2: { right. split; [exact Hv |]. exists d'. split; [right; exact Hin | exact Hd']. }
  pose proof (handleWebhook_store sanitize cfg d.1.1 d.1.2 d.2 st) as Hs.
  unfold post in Hs.
  destruct Hs as [[Hdb _] | (topic & domain & wid & h & Hh & _ & Hdb & _)];
    rewrite Hdb in H1; [auto |].
  unfold redis_set_ex in H1.
  destruct (decide (wid = key)) as [-> | Hne].
  - rewrite lookup_insert_eq in H1. inversion H1. right. split; [reflexivity |].
    exists d. split; [left |].
    destruct (extractHeaders_inr _ _ _ _ Hh) as (_ & _ & Hw & _).
    split; [exact Hw | reflexivity].
  - rewrite lookup_insert_ne in H1 by exact Hne. auto.
Qed.

End ControllerMore.

(** ** The digest's shape *)

Section DigestShape.
Import Bytes Controller.

Lemma round_length st kw : length st = 8%nat -> length (Sha256.round st kw) = 8%nat.
Proof.
  intros H. do 9 (destruct st as [| ? st]; try discriminate H). reflexivity.
Qed.

Lemma rounds_length kws st :
  length st = 8%nat -> length (fold_left Sha256.round kws st) = 8%nat.
Proof.
  revert st. induction kws as [| kw kws IH]; intros st H; [exact H |].
  cbn [fold_left]. apply IH, round_length, H.
Qed.

Lemma compress_length h block :
  length h = 8%nat -> length (Sha256.compress h block) = 8%nat.
Proof.
  intros H. unfold Sha256.compress, Sha256.zip_add.
  rewrite length_map, length_combine, rounds_length by exact H. rewrite H. reflexivity.
Qed.

Lemma blocks_length fuel h ws :
  length h = 8%nat -> length (Sha256.blocks fuel h ws) = 8%nat.
Proof.
  revert h ws. induction fuel as [| fuel IH]; intros h ws H; [exact H |].
  cbn [Sha256.blocks]. destruct ws; [exact H |]. apply IH, compress_length, H.
Qed.

Lemma sha256_length msg : length (Sha256.sha256 msg) = 32%nat.
Proof.
  unfold Sha256.sha256.
  pose proof (blocks_length (length (Sha256.words (Sha256.pad msg))) Sha256.H0
                (Sha256.words (Sha256.pad msg)) eq_refl) as H.
  destruct (Sha256.blocks _ _ _) as [| ? l]; [discriminate H |].
  do 8 (destruct l as [| ? l]; try discriminate H). reflexivity.
Qed.

Lemma base64_of_32_bytes bs :
  length bs = 32%nat -> String.length (Base64.encode bs) = 44%nat.
Proof.
  intros H. do 33 (destruct bs as [| ? bs]; try discriminate H). reflexivity.
Qed.

Lemma computeHmacSignature_length cfg body sig :
  computeHmacSignature cfg body = inr sig -> String.length sig = 44%nat.
Proof.
  unfold computeHmacSignature. destruct (SHOPIFY_WEBHOOK_SECRET cfg); [| discriminate].
  intros H. inversion H. apply base64_of_32_bytes. apply sha256_length.
Qed.

End DigestShape.

Section SignatureEdges.
Import Bytes Controller.

Variable cfg : config.

(** X14: a delivery without signature header, or with one that is
    not 44 characters long (the length of every base64 SHA-256 digest), is
    refused: with 400 'Invalid HMAC signature' when a secret is configured,
    with the [TypeError] of [createHmac] when none is. *)
Theorem malformed_signature_is_refused req :
  x_shopify_hmac_sha256 req = None
  \/ (exists sig, x_shopify_hmac_sha256 req = Some sig /\ String.length sig <> 44%nat) ->
  validateWebhookSignature cfg (Utf8.toString (rawBody req)) req
  = Some (match SHOPIFY_WEBHOOK_SECRET cfg with
          | Some _ => BadRequestException "Invalid HMAC signature"
          | None => Error "TypeError" "The key argument must be of type string"
          end).
Proof.
  intros Hsig. unfold validateWebhookSignature.
  destruct (computeHmacSignature cfg (Utf8.toString (rawBody req))) as [e | computed] eqn:Hc.
  { unfold computeHmacSignature in Hc.
    destruct (SHOPIFY_WEBHOOK_SECRET cfg); [discriminate Hc |]. inversion Hc. reflexivity. }
  pose proof (computeHmacSignature_length _ _ _ Hc) as Hlen.
  unfold computeHmacSignature in Hc.
  destruct (SHOPIFY_WEBHOOK_SECRET cfg); [| discriminate Hc].
  rewrite bool_decide_eq_false_2; [reflexivity |].
  destruct Hsig as [Hnone | (sig & Hsome & Hl)]; rewrite ?Hnone, ?Hsome; [discriminate |].
  intros H. inversion H. congruence.
Qed.

End SignatureEdges.

(** ** Start-up lists *)

Section StartupFacts.
Import Startup.

Lemma split_length sep s : length (split sep s) = S (occurrences sep s).
Proof.
  induction s as [| c s IH]; [reflexivity |]. cbn [split occurrences].
  destruct (Ascii.eqb c sep); cbn [length Nat.add].
  - rewrite IH. reflexivity.
  - destruct (split sep s) as [| piece pieces]; [discriminate IH |]. exact IH.
Qed.

Lemma join_cons sep x y rest :
  Controller.join sep (x :: y :: rest)
  = String.append x (String.append sep (Controller.join sep (y :: rest))).
Proof. reflexivity. Qed.

Lemma split_join sep s : Controller.join (String sep EmptyString) (split sep s) = s.
Proof.
  induction s as [| c s IH]; [reflexivity |]. cbn [split].
  pose proof (split_length sep s) as Hl.
  destruct (split sep s) as [| piece pieces]; [discriminate Hl |].
  destruct (Ascii.eqb_spec c sep) as [-> | Hne].
  - rewrite join_cons, IH. reflexivity.
  - destruct pieces as [| y rest].
    + cbn [Controller.join] in *. rewrite IH. reflexivity.
    + rewrite join_cons in *. rewrite <- IH. reflexivity.
Qed.

Lemma split_pieces sep s : Forall (fun piece => occurrences sep piece = 0%nat) (split sep s).
Proof.
  induction s as [| c s IH]; [repeat constructor |]. cbn [split].
  destruct (Ascii.eqb c sep) eqn:Hc.
  - constructor; [reflexivity | exact IH].
  - destruct (split sep s) as [| piece pieces]; [repeat constructor; cbn; rewrite Hc; reflexivity |].
    inversion IH; subst. constructor; [| assumption].
    cbn. rewrite Hc. assumption.
Qed.

End StartupFacts.

(** ** More on registration *)

Section ServiceMore.
Import Service.

Variable register : list (string * string) -> string -> string -> response.

Ltac attempt_step :=
  unfold attempt at 1;
  match goal with
  | |- context [register ?h ?s ?t] => destruct (register h s t) eqn:?
  end;
  cbn [calls subscriptions sleeps metrics add_call add_subscription add_sleep
       add_metric on_retry].

(** X15: one [registerWebhook] makes at most three register calls;
    it emits one retry metric per failed call, the last one included, and
    then one success or failure metric; it sleeps 1000 ms and 2000 ms
    between calls; and it throws exactly when all three calls failed. *)
Theorem registration_reports_every_failed_call shop topic w :
  let '(w', r) := registerWebhook register shop topic w in
  exists failed : nat,
    (failed <= 3)%nat
    /\ calls w' = calls w ++ replicate (if r is inl _ then failed else S failed) (shop, topic)
    /\ sleeps w' = sleeps w ++ firstn (if r is inl _ then 2 else failed) [1000; 2000]
    /\ metrics w' = metrics w
         ++ replicate failed ("shopify.webhook.registration_retry"%string, topic)
         ++ [((if r is inl _ then "shopify.webhook.registration_failure"
               else "shopify.webhook.registration_success")%string, topic)]
    /\ (failed = 3%nat <-> r <> inr tt).
Proof.
  unfold registerWebhook. rewrite retry_registration.
  attempt_step.
  1: { exists 0%nat. repeat split; try lia; try congruence; cbn;
       rewrite ?app_nil_r; reflexivity. }
  all: attempt_step.
  1, 4: exists 1%nat; repeat split; try lia; try congruence; cbn;
        rewrite <- ?app_assoc; reflexivity.
  all: attempt_step.
  1, 4, 7, 10: exists 2%nat; repeat split; try lia; try congruence; cbn;
        rewrite <- ?app_assoc; reflexivity.
  all: exists 3%nat; repeat split; try lia; try congruence; cbn;
        rewrite <- ?app_assoc; reflexivity.
Qed.

Lemma registerWebhooks_calls shop topics w :
  exists more, calls (registerWebhooks register shop topics w).1 = calls w ++ more.
Proof.
  revert w. induction topics as [| t ts IH]; intros w; cbn [registerWebhooks].
  - exists []. rewrite app_nil_r. reflexivity.
  - pose proof (registerWebhook_effects register shop t w) as He.
    destruct (registerWebhook register shop t w) as [w' [e | []]];
      destruct He as ((n & _ & Hc) & _).
    + exists (replicate n (shop, t)). exact Hc.
    + destruct (IH w') as (more & Hm). rewrite Hm, Hc, <- app_assoc. eauto.
Qed.

(** X16: the topic list read at start-up is never empty, since
    [split] yields one piece more than there are commas and joining the
    pieces gives the setting back; so [registerWebhooks] always calls the
    platform, first for the text before the first comma, which is the empty
    topic when SHOPIFY_WEBHOOK_TOPICS is unset or empty. *)
Theorem registration_always_calls_the_platform shop raw w :
  exists first rest more,
    Startup.webhookTopics raw = first :: rest
    /\ length rest = Startup.occurrences "," (default ""%string raw)
    /\ Controller.join "," (first :: rest) = default ""%string raw
    /\ calls (registerWebhooks register shop (Startup.webhookTopics raw) w).1
       = calls w ++ (shop, first) :: more
    /\ (default ""%string raw = ""%string -> first = ""%string /\ rest = []).
Proof.
  unfold Startup.webhookTopics.
  pose proof (split_length "," (default ""%string raw)) as Hl.
  pose proof (split_join "," (default ""%string raw)) as Hj.
  destruct (Startup.split "," (default ""%string raw)) as [| first rest] eqn:Hs;
    [discriminate Hl |].
  assert (Hempty : default ""%string raw = ""%string -> first = ""%string /\ rest = []).
  { intros He. rewrite He in Hs. cbn in Hs. split; congruence. }
  assert (Hrest : length rest = Startup.occurrences "," (default ""%string raw)).
  { cbn in Hl. lia. }
  cbn [registerWebhooks].
  pose proof (registerWebhook_effects register shop first w) as He.
  destruct (registerWebhook register shop first w) as [w' [e | []]];
    destruct He as ((n & Hn & Hc) & _);
    (destruct n as [| n]; [lia |]); cbn [replicate] in Hc.
  - exists first, rest, (replicate n (shop, first)).
    split; [reflexivity |]. split; [exact Hrest |]. split; [exact Hj |].
    split; [exact Hc | exact Hempty].
  - destruct (registerWebhooks_calls shop rest w') as (more & Hm).
    exists first, rest, (replicate n (shop, first) ++ more).
    split; [reflexivity |]. split; [exact Hrest |]. split; [exact Hj |].
    split; [| exact Hempty].
    rewrite Hm, Hc, <- app_assoc. reflexivity.
Qed.

(** X17: when [registerWebhooks] returns normally, every topic of
    the list has been subscribed for the shop, in list order, with between
    one and three register calls per topic. *)
Theorem successful_registration_subscribes_every_topic shop topics w w1 :
  registerWebhooks register shop topics w = (w1, inr tt) ->
  subscriptions w1 = subscriptions w ++ map (pair shop) topics
  /\ (forall topic, topic ∈ topics -> (shop, topic) ∈ subscriptions w1)
  /\ (length (calls w) + length topics <= length (calls w1)
      <= length (calls w) + 3 * length topics)%nat.
Proof.
  intros H. destruct (registerWebhooks_done register shop topics w w1 H) as (Hs & Hle & Hge).
  repeat split; try assumption.
  intros topic Hin. rewrite Hs. apply elem_of_app. right.
  apply list_elem_of_fmap. exists topic. auto.
Qed.

End ServiceMore.

(** ** More on the queue processor *)

Section QueueMore.
Import Queue.

Variable strategy : Z -> nat -> Z.
Variable opts : JobOptions.
Variable jobId : string.
Variable body : nat -> option error.

Lemma work_succeeds k : forall more made t,
  (forall i, (i < k)%nat -> body (made + i)%nat <> None) ->
  body (made + k)%nat = None ->
  (k <= more)%nat ->
  let t' := work strategy opts jobId body more made t in
  invocations t' = (invocations t + S k)%nat
  /\ waits t' = waits t ++ map (strategy (backoff_delay opts)) (seq (S made) k)
  /\ length (alerts_raised t') = (length (alerts_raised t) + permanent_runs body made k)%nat
  /\ final t' = completed.
Proof.
  induction k as [| k IH]; intros more made t Hfail Hok Hle.
  - rewrite Nat.add_0_r in Hok. destruct more; cbn [work]; unfold processStringJob;
      rewrite Hok; cbn; rewrite app_nil_r; repeat split; lia.
  - destruct more as [| more]; [lia |].
    assert (Hb : body made <> None).
    { specialize (Hfail 0%nat ltac:(lia)). rewrite Nat.add_0_r in Hfail. exact Hfail. }
    destruct (body made) as [e |] eqn:Hbody; [| contradiction].
    cbn [work]. rewrite Hbody.
    assert (Hp : exists alerts', processStringJob jobId (Some e) (alerts_raised t)
                                 = (alerts', inl e)
                   /\ length alerts' = (length (alerts_raised t)
                                        + (if is_permanent (Some e) then 1 else 0))%nat).
    { destruct e; cbn; eexists; split; try reflexivity; unfold triggerAlert;
        rewrite ?length_app; cbn; lia. }
    destruct Hp as (alerts' & -> & Hal).
    edestruct (IH more (S made)
                 (Build_trace (S (invocations t))
                    (waits t ++ [strategy (backoff_delay opts) (S made)])
                    alerts' failed)) as (Hi & Hw & Ha & Hf).
    + intros i Hi. replace (S made + i)%nat with (made + S i)%nat by lia.
      apply Hfail. lia.
    + replace (S made + k)%nat with (made + S k)%nat by lia. exact Hok.
    + lia.
    + cbn [invocations waits alerts_raised final] in *.
      rewrite Hi, Hw, Ha, Hf. repeat split; try lia.
      * change (seq (S made) (S k)) with (S made :: seq (S (S made)) k).
        cbn [map]. rewrite <- app_assoc. reflexivity.
      * rewrite Hal. unfold permanent_runs.
        change (seq made (S k)) with (made :: seq (S made) k).
        cbn [List.filter]. rewrite Hbody.
        destruct (is_permanent (Some e)); cbn [length]; lia.
Qed.

(** X18: a job whose processor throws on its first [k] runs and
    then succeeds, with [k] below the number of attempts, is run [k + 1]
    times, waits the backoff delay after each failed run, ends completed,
    and has raised one alert per run that failed with a
    [PermanentErrorException]. *)
Theorem job_that_recovers_is_completed k :
  (forall i, (i < k)%nat -> body i <> None) ->
  body k = None ->
  (k < Nat.max 1 (attempts opts))%nat ->
  let t := process_job strategy opts jobId body in
  invocations t = S k
  /\ waits t = map (strategy (backoff_delay opts)) (seq 1 k)
  /\ final t = completed
  /\ length (alerts_raised t) = permanent_runs body 0 k.
Proof.
  intros Hfail Hok Hk.
  destruct (work_succeeds k (attempts opts - 1) 0 (Build_trace 0 [] [] failed))
    as (Hi & Hw & Ha & Hf); try assumption; try lia.
  unfold process_job. cbn [invocations waits alerts_raised final] in *.
  repeat split; assumption.
Qed.

End QueueMore.

(** ** The task queue service *)

Section TaskFacts.
Import Tasks.










End TaskFacts.
(** ** The further properties at explicit inputs *)

Section MoreExamples.
Import Bytes Controller Delivery Fixtures Samples.

(** X1: a delivery whose topic header is empty. *)
Lemma missing_headers_witness :
  exists names,
    handleWebhook id cfg no_faults 1000 (with_topic "" plain) fresh =
      (fresh, inl (BadRequestException
                     (String.append "Missing required HTTP headers: " (join ", " names))))
    /\ names <> []
    /\ "Topic"%string ∈ names.
Proof.
  destruct (missing_headers_are_a_bare_400 id cfg no_faults 1000 (with_topic "" plain)
              fresh (or_introl eq_refl))
    as (names & Hrun & Hne & _ & Htopic & _).
  exists names. split; [exact Hrun |]. split; [exact Hne |].
  apply Htopic. reflexivity.
Defined.

(** X3: a delivery from an address that is not on the list. *)
Lemma disallowed_address_witness :
  let req := with_ip "203.0.113.9" plain in
  (handleWebhook id cfg no_faults 1000 req fresh).2
  = inl (InternalServerErrorException "An error occurred while processing the webhook")
  /\ slack (handleWebhook id cfg no_faults 1000 req fresh).1
     = ["Webhook processing failed: Unauthorized IP address"%string]
  /\ webhookQueue (handleWebhook id cfg no_faults 1000 req fresh).1 = [].
Proof.
  intros req.
  assert (Hip : ip req ∉ SHOPIFY_IPS cfg).
  { apply (bool_decide_unpack _). vm_compute. reflexivity. }
  pose proof (disallowed_address_is_answered_500 id cfg no_faults 1000 req fresh
                "orders/create" "shop.example.com" "abc-1" eq_refl Hip eq_refl) as H.
  unfold post in H. destruct H as (Hr & _ & Hs & _ & Hq & _).
  split; [exact Hr |]. split; [exact Hs | exact Hq].
Defined.


(** X5: two handlers for 'orders/create'. *)
Lemma first_handler_witness :
  webhookQueue (handleWebhook id cfg no_faults 1000 plain doubly_registered).1
  = [job_of id plain first_handler].
Proof.
  pose proof (first_registered_handler_is_used id cfg no_faults 1000 plain doubly_registered
                [] first_handler [second_handler] eq_refl eq_refl (Forall_nil_2 _)) as H.
  unfold post in H. apply H. vm_compute. reflexivity.
Defined.

(** X6: a delivery for 'customers/create'. *)
Lemma unknown_topic_witness :
  handleWebhook id cfg no_faults 1000 (with_topic "customers/create" plain) fresh
  = (fresh, inr NoBody).
Proof.
  refine (proj1 (unknown_topic_is_acknowledged_and_dropped id cfg no_faults 1000
                   (with_topic "customers/create" plain) fresh fresh
                   "customers/create" "shop.example.com" "abc-1"
                   eq_refl eq_refl _ _ _)).
  - discriminate.
  - discriminate.
  - vm_compute. reflexivity.
Defined.

(** X7: 'abc-1' accepted at instant 1000 and delivered again an hour
    later. *)
Lemma redelivery_after_ttl_witness :
  (handleWebhook id cfg no_faults 3601000 plain after_first).2 = inr accepted
  /\ length (webhookQueue (handleWebhook id cfg no_faults 3601000 plain after_first).1)
     = 2%nat.
Proof.
  pose proof (redelivery_after_ttl_is_processed_again id cfg no_faults no_faults
                1000 3601000 plain fresh eq_refl eq_refl eq_refl eq_refl ltac:(lia)) as H.
  unfold post in H.
  assert (H1 : (handleWebhook id cfg no_faults 1000 plain fresh).2 = inr accepted)
    by (vm_compute; reflexivity).
  destruct (H H1) as (H2 & j & _ & Hq).
  split; [exact H2 |].
  change after_first with (handleWebhook id cfg no_faults 1000 plain fresh).1.
  rewrite Hq. reflexivity.
Defined.

(** X8: a delivery with nonce 'n-1' whose enqueue fails. *)
Lemma spent_nonce_witness :
  let fl := Build_faults false true false false in
  let first := delivery (Some "n-1"%string) (JInt 1000) in
  let st' := (handleWebhook id cfg fl 1000 first fresh).1 in
  validateTimestampAndNonce 661000 first st'
  = (st', inl (BadRequestException "Nonce has already been used")).
Proof.
  intros fl first st'.
  assert (Hfresh : "n-1"%string ∉ usedNonces fresh) by apply not_elem_of_empty.
  assert (Hsig : validateWebhookSignature cfg (Utf8.toString (rawBody first)) first = None)
    by (vm_compute; reflexivity).
  assert (Hip : validateIp cfg first = None) by (vm_compute; reflexivity).
  pose proof (nonce_is_spent_whatever_follows id cfg fl 1000 first fresh
                "orders/create" "shop.example.com" "abc-1" "n-1"
                eq_refl Hip eq_refl Hsig eq_refl ltac:(discriminate) Hfresh eq_refl) as H.
  unfold post in H. exact (proj2 H 661000).
Defined.

(** X9: the same delivery with a timestamp and without. *)
Lemma ignored_timestamp_witness :
  handleWebhook id cfg no_faults 1000 (with_timestamp (JInt 0) plain) fresh
  = handleWebhook id cfg no_faults 1000 plain fresh.
Proof.
  exact (timestamp_is_ignored_without_nonce id cfg no_faults 1000 plain fresh (JInt 0)
           eq_refl).
Defined.

(** X10: the store holds the JSON text [true] under 'abc-1'. *)
Lemma foreign_mark_witness :
  handleWebhook id cfg no_faults 1000 plain (holding "true")
  = (holding "true", inr (Body true "Webhook already processed")).
Proof.
  refine (proj1 (foreign_mark_is_honoured id cfg no_faults 1000 plain (holding "true")
                   (holding "true") "orders/create" "shop.example.com" "abc-1"
                   "true" (Json.JBool true) eq_refl _ _ eq_refl)).
  - vm_compute. reflexivity.
  - vm_compute. reflexivity.
Defined.

(** X11: a redelivery to a controller that started with an empty store. *)
Lemma never_already_processed_witness :
  (handleWebhook id cfg no_faults 2000 plain
     (serve id cfg [(no_faults, 1000, plain)] fresh)).2
  <> inr (Body true "Webhook already processed").
Proof.
  apply (already_processed_is_never_answered id cfg [(no_faults, 1000, plain)]
           no_faults 2000 plain fresh).
  intros key value expires H. cbn in H. rewrite lookup_empty in H. discriminate H.
Defined.

(** X13: the one entry after serving [plain] at instant 1000. *)
Lemma only_marks_witness :
  redis fresh !! "abc-1"%string = Some ("processed"%string, 3601000)
  \/ ("processed"%string = "processed"%string
      /\ exists d, d ∈ [(no_faults, 1000, plain)]
           /\ x_shopify_webhook_id d.2 = Some "abc-1"%string
           /\ 3601000 = d.1.2 + 3600 * 1000).
Proof.
  apply (serve_only_writes_marks id cfg [(no_faults, 1000, plain)] fresh
           "abc-1" "processed" 3601000).
  vm_compute. reflexivity.
Defined.

(** X14: a signature of five characters. *)
Lemma malformed_signature_witness :
  validateWebhookSignature cfg (Utf8.toString (rawBody (with_body body "short")))
    (with_body body "short")
  = Some (BadRequestException "Invalid HMAC signature").
Proof.
  apply (malformed_signature_is_refused cfg (with_body body "short")).
  right. exists "short"%string. split; [reflexivity | discriminate].
Defined.

(** X17: two topics on a platform whose first answer is a rejection. *)
Lemma successful_registration_witness :
  let w1 := (Service.registerWebhooks flaky "shop.example.com"
               ["orders/create"%string; "products/update"%string]
               Service.empty_world).1 in
  Service.subscriptions w1
  = [("shop.example.com"%string, "orders/create"%string);
     ("shop.example.com"%string, "products/update"%string)]
  /\ (2 <= length (Service.calls w1) <= 6)%nat.
Proof.
  intros w1.
  destruct (successful_registration_subscribes_every_topic flaky "shop.example.com"
              ["orders/create"%string; "products/update"%string]
              Service.empty_world w1 ltac:(vm_compute; reflexivity))
    as (Hs & _ & Hc).
  split; [exact Hs | exact Hc].
Defined.

(** X18: a job that throws twice and then succeeds, under the default
    options. *)
Lemma recovering_job_witness :
  let t := Queue.process_job (Queue.builtin_backoff Queue.exponential)
             queue_defaults "7" third_time_lucky in
  Queue.invocations t = 3%nat
  /\ Queue.waits t = [1000; 3000]
  /\ Queue.final t = Queue.completed
  /\ length (Queue.alerts_raised t) = 0%nat.
Proof.
  refine (job_that_recovers_is_completed (Queue.builtin_backoff Queue.exponential)
            queue_defaults "7" third_time_lucky 2 _ eq_refl _).
  - intros i Hi. destruct i as [| [| i]]; [discriminate | discriminate | lia].
  - vm_compute. lia.
Defined.




End MoreExamples.
